(** * Territory coverage resolution of the Zenbooker MCP server

    A shallow embedding of the scheduling tool module (the file that imports
    [isPointInPolygon] and [getDistance] from geolib): [geocodeAddress],
    [createTerritoryBoundaries] and the handler of
    [checkTerritoryCoverageTool], together with [makeZenbookerRequest] of
    [tools/base.ts].

    JavaScript numbers are IEEE-754 binary64 values and are modelled by
    Rocq's primitive floats.  Network calls are modelled by explicit state
    passing: the state is the history of the calls issued so far, and the
    two remote services answer as functions of that history, so that the
    same query may be answered differently at different times.  Exceptions
    are modelled by a completion type, [try]/[catch] by a combinator.  The
    [console.warn] calls of the [catch] blocks have no effect on what the
    functions return and are left out.

    The functions the module takes from elsewhere ([parseFloat],
    [Math.round], geolib's [isPointInPolygon] and [getDistance]) are
    parameters of the program; the general statements hold for every value
    of these parameters and for every behaviour of the two services.
    Replies and territories are typed as the interfaces of the module
    declare them ([GeocodingResult[]], [TerritoriesResponse], [Territory]). *)

From Stdlib Require Import Floats.PrimFloat.
From Stdlib Require Import String List Bool NArith DecimalString Arith Lia.
Import ListNotations.

Set Implicit Arguments.
Set Warnings "-inexact-float".

Local Open Scope string_scope.
Local Open Scope list_scope.

(** ** Completions and the state-and-exception monad *)

(** A thrown JavaScript value: either an [Error] object, of which only the
    [message] is ever read, or any other value ([error instanceof Error]
    is false for it). *)
Inductive Thrown : Type :=
| ErrorObj (message : string)
| NonError.

(** The outcome of evaluating an expression or of awaiting a promise. *)
Inductive Completion (A : Type) : Type :=
| Normal (a : A)
| Throw (e : Thrown).

Arguments Normal {A} a.
Arguments Throw {A} e.

(** Computations over a state [S].  A throw keeps the state reached so far,
    as assignments made before a JavaScript exception stay made. *)
Definition M (S A : Type) : Type := S -> Completion A * S.

Definition ret {S A} (a : A) : M S A := fun s => (Normal a, s).

Definition bind {S A B} (m : M S A) (k : A -> M S B) : M S B :=
  fun s =>
    match m s with
    | (Normal a, s') => k a s'
    | (Throw e, s') => (Throw e, s')
    end.

Definition throw {S A} (e : Thrown) : M S A := fun s => (Throw e, s).

Definition try_catch {S A} (body : M S A) (handler : Thrown -> M S A) : M S A :=
  fun s =>
    match body s with
    | (Normal a, s') => (Normal a, s')
    | (Throw e, s') => handler e s'
    end.

Declare Scope js_scope.
Delimit Scope js_scope with js.
Notation "x <- m ;; k" := (bind m (fun x => k))
  (at level 100, m at next level, right associativity) : js_scope.
Notation "m ;; k" := (bind m (fun _ => k))
  (at level 100, right associativity) : js_scope.
Local Open Scope js_scope.

(** [for (const x of l) body] for a body without [break] or [continue]. *)
Fixpoint forOf {S A} (l : list A) (body : A -> M S unit) : M S unit :=
  match l with
  | [] => ret tt
  | x :: rest => body x ;; forOf rest body
  end.

(** [if (c) { body }] without an [else]. *)
Definition when {S} (c : bool) (body : M S unit) : M S unit :=
  if c then body else ret tt.

(** [error instanceof Error ? error.message : 'Unknown error'] *)
Definition messageOf (error : Thrown) : string :=
  match error with
  | ErrorObj message => message
  | NonError => "Unknown error"
  end.

(** Template-literal rendering of an HTTP status number. *)
Definition showNumber (n : N) : string := NilEmpty.string_of_uint (N.to_uint n).

(** ** Data model *)

Record Coordinates : Type := {
  latitude : float;
  longitude : float
}.

Record Territory : Type := {
  id : string;
  name : string;
  description : option string;
  zip_codes : option (list string);
  cities : option (list string);
  states : option (list string);
  active : bool;
  created_at : string;
  updated_at : string
}.

(** [TerritoryWithBoundaries extends Territory]; built by the spread
    [{...territory, boundaries, center}]. *)
Record TerritoryWithBoundaries : Type := {
  territory_of : Territory;
  boundaries : option (list Coordinates);
  center : option Coordinates
}.

Record GeocodingResult : Type := {
  lat : string;
  lon : string;
  display_name : string
}.

Record PaginatedResponse (T : Type) : Type := {
  cursor : float;
  results : list T;
  count : float;
  has_more : bool;
  next_cursor : option float
}.

Definition TerritoriesResponse : Type := PaginatedResponse Territory.

(** What [fetch] resolves to: the fields of the [Response] the code reads.
    [text] and [json] are the results of awaiting [response.text()] and
    [response.json()]. *)
Record Response (B : Type) : Type := {
  ok : bool;
  status : N;
  statusText : string;
  text : Completion string;
  json : Completion B
}.

(** A reply of Nominatim; the JSON body is [GeocodingResult[]], where [None]
    stands for a body that is falsy ([null]).  [Throw] is a rejected
    [fetch]. *)
Definition NominatimReply : Type :=
  Completion (Response (option (list GeocodingResult))).

Definition ZenbookerReply : Type := Completion (Response TerritoriesResponse).

(** One call issued to the outside world, with the reply it received. *)
Inductive Call : Type :=
| NominatimCall (q : string) (reply : NominatimReply)
| ZenbookerCall (endpoint method : string) (body : option string)
    (apiKey : string) (reply : ZenbookerReply).

(** The calls issued so far, oldest first. *)
Abbreviation History := (list Call).

Record TextContent : Type := { type : string; text_of : string }.

Record ToolResult : Type := {
  content : list TextContent;
  isError : option bool
}.

(** The entry pushed on [results] for a territory that does not cover. *)
Record Analysis : Type := {
  territory_id : string;
  territory_name : string;
  is_covered : bool;
  distance_meters : option float
}.

Record CoveredBy : Type := {
  cb_id : string;
  cb_name : string;
  cb_description : option string;
  cb_zip_codes : option (list string);
  cb_cities : option (list string);
  cb_states : option (list string)
}.

Record Closest : Type := {
  cl_id : string;
  cl_name : string;
  cl_distance_meters : float;
  cl_distance_miles : float
}.

(** The [response] object of the handler. *)
Record CoverageResponse : Type := {
  address : string;
  coordinates : Coordinates;
  coverage_status : string;
  covered_by_territory : option CoveredBy;
  closest_territory : option Closest;
  all_territories_checked : nat;
  territories_analysis : list Analysis
}.

(** The local variables [boundaries] and [center] of
    [createTerritoryBoundaries]. *)
Record Locals : Type := {
  boundaries_var : list Coordinates;
  center_var : option Coordinates
}.

(** The local variables of the handler's loop. *)
Record LoopVars : Type := {
  results_var : list Analysis;
  coveredByTerritory : option TerritoryWithBoundaries;
  closestTerritory : option (TerritoryWithBoundaries * float)
}.

(** A string stands for the JavaScript string of which it holds the UTF-8
    bytes; an unpaired surrogate, which UTF-8 proper does not encode, is the
    three bytes ED A0..BF 80..BF.  [hasUnpairedSurrogate] finds such a
    sequence. *)
Fixpoint hasUnpairedSurrogate (s : string) : bool :=
  match s with
  | EmptyString => false
  | String a rest =>
      match rest with
      | EmptyString => false
      | String b _ =>
          ((Ascii.N_of_ascii a =? 237)%N
           && (160 <=? Ascii.N_of_ascii b)%N
           && (Ascii.N_of_ascii b <=? 191)%N)
          || hasUnpairedSurrogate rest
      end
  end.

(** [String.prototype.isWellFormed].  [encodeURIComponent] returns on the
    well-formed strings and throws a [URIError] on the others; as the URL of
    a lookup is built with it inside the [try] of [geocodeAddress], a lookup
    reaches the geocoder only for a well-formed query.  The statements about
    which lookups are issued are made for well-formed queries. *)
Definition isWellFormed (s : string) : bool := negb (hasUnpairedSurrogate s).

(** JavaScript truthiness of a string. *)
Definition truthy (s : string) : bool :=
  match s with
  | EmptyString => false
  | String _ _ => true
  end.

(** The four corners pushed by the fallback, in the order of the source. *)
Definition squareAround (center : Coordinates) : list Coordinates :=
  let offset := 0.15%float in
  [ {| latitude := PrimFloat.add (latitude center) offset;
       longitude := PrimFloat.add (longitude center) offset |};
    {| latitude := PrimFloat.add (latitude center) offset;
       longitude := PrimFloat.sub (longitude center) offset |};
    {| latitude := PrimFloat.sub (latitude center) offset;
       longitude := PrimFloat.sub (longitude center) offset |};
    {| latitude := PrimFloat.sub (latitude center) offset;
       longitude := PrimFloat.add (longitude center) offset |} ].

(** ** Tool parameters and query strings

    The parameter object a handler receives, as the list of its own
    properties in insertion order (the keys of the tool schemas are not
    array indices, so this is the order of [Object.entries]), with values
    that are primitives. *)

Inductive JsValue : Type :=
| JsUndefined
| JsNull
| JsBoolean (b : bool)
| JsNumber (n : float)
| JsString (s : string).

Abbreviation JsObject := (list (string * JsValue)).

(** JavaScript truthiness, as [||] tests it. *)
Definition truthyValue (v : JsValue) : bool :=
  match v with
  | JsUndefined | JsNull => false
  | JsBoolean b => b
  | JsNumber n => negb (PrimFloat.eqb n 0%float) && PrimFloat.eqb n n
  | JsString s => truthy s
  end.

(** [o[k]] *)
Fixpoint getProp (o : JsObject) (k : string) : JsValue :=
  match o with
  | [] => JsUndefined
  | (k', v) :: rest => if String.eqb k' k then v else getProp rest k
  end.

(** [{...o, [k]: v}]: an existing property keeps its place, a new one
    comes last. *)
Fixpoint setProp (o : JsObject) (k : string) (v : JsValue) : JsObject :=
  match o with
  | [] => [(k, v)]
  | (k', v') :: rest =>
      if String.eqb k' k then (k, v) :: rest else (k', v') :: setProp rest k v
  end.

Section Query.

(** [String(n)] for a number, and [URLSearchParams.prototype.toString]. *)
Variable numberToString : float -> string.
Variable toQueryString : list (string * string) -> string.

(** [String(value)] *)
Definition stringOf (v : JsValue) : string :=
  match v with
  | JsUndefined => "undefined"
  | JsNull => "null"
  | JsBoolean true => "true"
  | JsBoolean false => "false"
  | JsNumber n => numberToString n
  | JsString s => s
  end.

(** The entries appended to the [URLSearchParams], in order. *)
Definition buildQueryParams (params : JsObject) : list (string * string) :=
  flat_map (fun entry =>
              match snd entry with
              | JsUndefined => []
              | value => [(fst entry, stringOf value)]
              end)
    params.

(** [{...params, limit: params.limit || 10}] *)
Definition paramsWithDefaults (params : JsObject) : JsObject :=
  setProp params "limit"
    (if truthyValue (getProp params "limit") then getProp params "limit"
     else JsNumber 10%float).

(** The endpoint requested by the handler of
    [getAvailableAppointmentsTool]. *)
Definition availableAppointmentsEndpoint (params : JsObject) : string :=
  "/scheduling/available-appointments?"
  ++ toQueryString (buildQueryParams (paramsWithDefaults params)).

(** The endpoint requested by the handler of
    [checkAdjacentTerritoresTool]. *)
Definition adjacentTerritoriesEndpoint (params : JsObject) : string :=
  "/territories/check-adjacent?" ++ toQueryString (buildQueryParams params).

End Query.

(** ** Replies and determinacy *)

(** What the outside world contributed to a call. *)
Inductive Reply : Type :=
| NominatimReplied (reply : NominatimReply)
| ZenbookerReplied (reply : ZenbookerReply).

Definition replyOf (c : Call) : Reply :=
  match c with
  | NominatimCall _ reply => NominatimReplied reply
  | ZenbookerCall _ _ _ _ reply => ZenbookerReplied reply
  end.

(** The replies received in the calls [calls], in order. *)
Definition replies (calls : list Call) : list Reply := map replyOf calls.

(** Continuing a computation with a function of its completion; [bind] and
    [try_catch] are both of this form. *)
Definition andThen {S A B} (m : M S A) (k : Completion A -> M S B) : M S B :=
  fun s => let (x, s') := m s in k x s'.

Section Determinacy.

Variables (S X : Type).

(** The history inside a state, and the rest of the state. *)
Variable hist : S -> History.
Variable rest : S -> X.

(** [m] only ever adds calls at the end of the history. *)
Definition extends {A} (m : M S A) : Prop :=
  forall s r s', m s = (r, s') -> exists calls, hist s' = hist s ++ calls.

(** Two computations, typically one program in two worlds, that are started
    in states that differ in their histories only and that receive the same
    replies, as far as they go, issue the same calls, complete in the same
    way and leave the rest of the state equal. *)
Definition sameOnReplies {A} (m1 m2 : M S A) : Prop :=
  forall s1 s2 r1 r2 s1' s2' c1 c2 k1 k2,
    rest s1 = rest s2 ->
    m1 s1 = (r1, s1') ->
    m2 s2 = (r2, s2') ->
    hist s1' = hist s1 ++ c1 ->
    hist s2' = hist s2 ++ c2 ->
    replies c1 ++ k1 = replies c2 ++ k2 ->
    c1 = c2 /\ k1 = k2 /\ r1 = r2 /\ rest s1' = rest s2'.

Definition determinate {A} (m1 m2 : M S A) : Prop :=
  extends m1 /\ extends m2 /\ sameOnReplies m1 m2.

End Determinacy.

(** ** A concrete world

    Replies and library functions used to run the program on explicit
    inputs. *)

Module Demo.

Definition found (la lo : string) : NominatimReply :=
  Normal {| ok := true; status := 200%N; statusText := "OK";
            text := Normal "";
            json := Normal (Some [ {| lat := la; lon := lo;
                                      display_name := "" |} ]) |}.

Definition noResults : NominatimReply :=
  Normal {| ok := true; status := 200%N; statusText := "OK";
            text := Normal "[]"; json := Normal (Some []) |}.

Definition tooManyRequests : NominatimReply :=
  Normal {| ok := false; status := 429%N; statusText := "Too Many Requests";
            text := Normal ""; json := Throw (ErrorObj "Unexpected end of JSON input") |}.

(** A geocoder that knows three postal codes, one city and one street
    address, is rate limited on one postal code and finds nothing else. *)
Definition nominatim (h : History) (q : string) : NominatimReply :=
  if String.eqb q "59101" then found "45.75" "-108.5"
  else if String.eqb q "59102" then found "45.7833" "-108.5007"
  else if String.eqb q "59105" then found "45.85" "-108.4"
  else if String.eqb q "Laurel, MT" then found "45.6691" "-108.7715"
  else if String.eqb q "1 Main St, Billings, MT" then found "45.75" "-108.5"
  else if String.eqb q "59106" then tooManyRequests
  else noResults.

(** [parseFloat] on the coordinate strings of [nominatim]. *)
Definition parseFloat (s : string) : float :=
  if String.eqb s "45.75" then 45.75%float
  else if String.eqb s "-108.5" then (-108.5)%float
  else if String.eqb s "45.7833" then 45.7833%float
  else if String.eqb s "-108.5007" then (-108.5007)%float
  else if String.eqb s "45.85" then 45.85%float
  else if String.eqb s "-108.4" then (-108.4)%float
  else if String.eqb s "45.6691" then 45.6691%float
  else if String.eqb s "-108.7715" then (-108.7715)%float
  else PrimFloat.nan.

(** A Zenbooker API that serves a fixed territory list. *)
Definition serving (territories : list Territory)
    (h : History) (endpoint method : string) (body : option string)
    (apiKey : string) : ZenbookerReply :=
  Normal {| ok := true; status := 200%N; statusText := "OK";
            text := Normal "";
            json := Normal {| cursor := 0%float; results := territories;
                              count := 0%float; has_more := false;
                              next_cursor := None |} |}.

Definition territory (i : string) (zips towns : list string) (act : bool)
  : Territory :=
  {| id := i; name := "Territory " ++ i; description := None;
     zip_codes := Some zips; cities := Some towns; states := Some ["MT"];
     active := act; created_at := ""; updated_at := "" |}.

(** The points the geocoder knows. *)
Definition billings : Coordinates :=
  {| latitude := 45.75%float; longitude := (-108.5)%float |}.
Definition heights : Coordinates :=
  {| latitude := 45.7833%float; longitude := (-108.5007)%float |}.
Definition northeast : Coordinates :=
  {| latitude := 45.85%float; longitude := (-108.4)%float |}.
Definition laurel : Coordinates :=
  {| latitude := 45.6691%float; longitude := (-108.7715)%float |}.

(** The lookup of [q], as it appears in the history. *)
Definition lookup (q : string) : Call := NominatimCall q (nominatim [] q).

(** Territories with one, two and three postal codes that geocode, one with
    a rate-limited and an unknown postal code in front of a known one, one
    whose codes are unknown, and an inactive one. *)
Definition oneZip : Territory := territory "T1" ["59101"] [] true.
Definition twoZips : Territory := territory "T2" ["59101"; "59102"] [] true.
Definition threeZips : Territory :=
  territory "T3" ["59101"; "59102"; "59105"] [] true.
Definition flaky : Territory := territory "T4" ["59106"; "00000"; "59102"] [] true.
Definition unknown : Territory := territory "T5" ["00000"] ["Nowhere"] true.
Definition closed : Territory := territory "T0" ["59101"] [] false.
Definition far : Territory := territory "T6" [] ["Laurel"] true.

(** Another geocoder: it has lost one postal code and starts to refuse
    lookups once ten calls were issued. *)
Definition nominatimLater (h : History) (q : string) : NominatimReply :=
  if (10 <=? List.length h)%nat then tooManyRequests
  else if String.eqb q "59105" then noResults
  else nominatim h q.

(** A Zenbooker API that rejects the key. *)
Definition unauthorized (h : History) (endpoint method : string)
    (body : option string) (apiKey : string) : ZenbookerReply :=
  Normal {| ok := false; status := 401%N; statusText := "Unauthorized";
            text := Normal "invalid api key";
            json := Throw (ErrorObj "Unexpected token") |}.

(** [String(n)] on the numbers of the examples. *)
Definition numberToString (n : float) : string :=
  if PrimFloat.eqb n 10%float then "10"
  else if PrimFloat.eqb n 60%float then "60"
  else "NaN".

(** Parameters of a request for appointments that names no limit. *)
Definition appointmentParams : JsObject :=
  [ ("address", JsString "1 Main St, Billings, MT");
    ("service_duration", JsNumber 60%float);
    ("limit", JsUndefined) ].

(** The address of the examples; it geocodes to [billings]. *)
Definition mainStreet : string := "1 Main St, Billings, MT".

(** Does the ray that leaves [point] towards the north cross the edge
    from [a] to [b]? *)
Definition crosses (point a b : Coordinates) : bool :=
  ((PrimFloat.leb (longitude a) (longitude point)
    && PrimFloat.ltb (longitude point) (longitude b))
   || (PrimFloat.leb (longitude b) (longitude point)
       && PrimFloat.ltb (longitude point) (longitude a)))
  && PrimFloat.ltb (latitude point)
       (PrimFloat.add
          (PrimFloat.div
             (PrimFloat.mul (PrimFloat.sub (latitude b) (latitude a))
                (PrimFloat.sub (longitude point) (longitude a)))
             (PrimFloat.sub (longitude b) (longitude a)))
          (latitude a)).

(** The edges of a closed polygon: each vertex with its predecessor, the
    first vertex with the last one. *)
Fixpoint edgesFrom (previous : Coordinates) (polygon : list Coordinates)
  : list (Coordinates * Coordinates) :=
  match polygon with
  | [] => []
  | v :: rest => (v, previous) :: edgesFrom v rest
  end.

Definition edges (polygon : list Coordinates) : list (Coordinates * Coordinates) :=
  match polygon with
  | [] => []
  | v :: _ => edgesFrom (last polygon v) polygon
  end.

(** Modelled from the spec: geolib's [isPointInPolygon], which the module
    imports and which is not among the repository's sources.  Section 4.3,
    step 3: ray casting, "a point is inside if a ray from the point crosses
    an odd number of polygon edges". *)
Definition isPointInPolygon (point : Coordinates) (polygon : list Coordinates)
  : bool :=
  Nat.odd (List.length (filter (fun e => crosses point (fst e) (snd e))
                          (edges polygon))).

(** An instance of the [getDistance] parameter for the examples (geolib's
    great-circle formula needs trigonometry): the larger of the two
    coordinate differences, in thousandths of a degree.  No statement
    below depends on its values. *)
Definition getDistance (a b : Coordinates) : float :=
  let dlat := PrimFloat.abs (PrimFloat.sub (latitude a) (latitude b)) in
  let dlon := PrimFloat.abs (PrimFloat.sub (longitude a) (longitude b)) in
  PrimFloat.mul 1000%float (if PrimFloat.ltb dlat dlon then dlon else dlat).

(** Instances of the [Math.round] and rendering parameters for the
    examples, which read neither [distance_miles] nor the rendered text. *)
Definition Math_round (x : float) : float := x.

Definition renderCoverage (response : CoverageResponse) : string :=
  coverage_status response.

End Demo.

(** ** The program *)

Section Program.

(** The outside world: each service answers as a function of the calls
    issued before. *)
Variable nominatim : History -> string -> NominatimReply.
Variable zenbooker :
  History -> string -> string -> option string -> string -> ZenbookerReply.

(** Library functions the module calls: the [parseFloat] and [Math.round]
    built-ins, geolib's [isPointInPolygon] and [getDistance], and the
    rendering of the response object as the Markdown text of the result. *)
Variable parseFloat : string -> float.
Variable Math_round : float -> float.
Variable isPointInPolygon : Coordinates -> list Coordinates -> bool.
Variable getDistance : Coordinates -> Coordinates -> float.
Variable renderCoverage : CoverageResponse -> string.

(** [await fetch(nominatim url for address)] *)
Definition fetchNominatim (address : string)
  : M History (Response (option (list GeocodingResult))) :=
  fun h =>
    let reply := nominatim h address in
    (reply, h ++ [NominatimCall address reply]).

Definition geocodeAddress (address : string) : M History Coordinates :=
  try_catch
    (response <- fetchNominatim address ;;
     if negb (ok response) then
       throw (ErrorObj ("Geocoding HTTP " ++ showNumber (status response)
                          ++ ": " ++ statusText response))
     else
       data <- (fun h => (json response, h)) ;;
       match data with
       | None | Some [] =>
           throw (ErrorObj ("Could not geocode address: " ++ address))
       | Some (first :: _) =>
           ret {| latitude := parseFloat (lat first);
                  longitude := parseFloat (lon first) |}
       end)
    (fun error => throw (ErrorObj ("Geocoding failed: " ++ messageOf error))).

(** *** createTerritoryBoundaries *)

(** Computations of the body of [createTerritoryBoundaries]: the history
    together with the function's local variables. *)
Definition LM (A : Type) : Type := M (History * Locals) A.

Definition liftH {A} (m : M History A) : LM A :=
  fun s => let (r, h') := m (fst s) in (r, (h', snd s)).

Definition getLocals : LM Locals := fun s => (Normal (snd s), s).

(** [boundaries.push(...cs)] *)
Definition push (cs : list Coordinates) : LM unit :=
  fun s =>
    (Normal tt,
     (fst s, {| boundaries_var := boundaries_var (snd s) ++ cs;
                center_var := center_var (snd s) |})).

(** [center = coords] *)
Definition setCenter (coords : Coordinates) : LM unit :=
  fun s =>
    (Normal tt,
     (fst s, {| boundaries_var := boundaries_var (snd s);
                center_var := Some coords |})).

(** The body shared by the two inner [try] blocks, and their [catch],
    which only writes a warning to the console. *)
Definition tryGeocode (query : string) : LM unit :=
  try_catch
    (coords <- liftH (geocodeAddress query) ;;
     push [coords] ;;
     l <- getLocals ;;
     when (match center_var l with None => true | Some _ => false end)
          (setCenter coords))
    (fun _ => ret tt).

Definition nonEmpty {A} (l : option (list A)) : bool :=
  match l with
  | Some (_ :: _) => true
  | _ => false
  end.

Definition orEmpty {A} (l : option (list A)) : list A :=
  match l with
  | Some l => l
  | None => []
  end.

(** [territory.states && territory.states[0] ? `${city}, ${states[0]}` : city] *)
Definition cityAddress (territory : Territory) (city : string) : string :=
  match states territory with
  | Some (state :: _) =>
      if truthy state then city ++ ", " ++ state else city
  | _ => city
  end.

Definition createTerritoryBoundaries_body (territory : Territory) : LM unit :=
  try_catch
    (when (nonEmpty (zip_codes territory))
       (forOf (firstn 5 (orEmpty (zip_codes territory)))
          (fun zipCode => tryGeocode zipCode)) ;;
     l <- getLocals ;;
     when (nonEmpty (cities territory)
           && (List.length (boundaries_var l) <? 3)%nat)
       (forOf (firstn 3 (orEmpty (cities territory)))
          (fun city => tryGeocode (cityAddress territory city))) ;;
     l <- getLocals ;;
     match center_var l with
     | Some center =>
         when (List.length (boundaries_var l) <? 3)%nat (push (squareAround center))
     | None => ret tt
     end)
    (fun _ => ret tt).

Definition createTerritoryBoundaries (territory : Territory)
  : M History TerritoryWithBoundaries :=
  fun h =>
    let '(r, (h', l)) :=
      (createTerritoryBoundaries_body territory ;;
       l <- getLocals ;;
       ret {| territory_of := territory;
              boundaries := if (3 <=? List.length (boundaries_var l))%nat
                            then Some (boundaries_var l) else None;
              center := center_var l |})
        (h, {| boundaries_var := []; center_var := None |}) in
    (r, h').

(** *** makeZenbookerRequest *)

(** [body && method !== "GET"]: the request body that is sent. *)
Definition sentBody (method : string) (body : option string) : option string :=
  match body with
  | Some b => if String.eqb method "GET" then None else Some b
  | None => None
  end.

(** [await fetch(url, config)] against the Zenbooker API. *)
Definition fetchZenbooker (endpoint method : string) (body : option string)
    (apiKey : string) : M History (Response TerritoriesResponse) :=
  fun h =>
    let reply := zenbooker h endpoint method body apiKey in
    (reply, h ++ [ZenbookerCall endpoint method body apiKey reply]).

Definition makeZenbookerRequest (endpoint method : string)
    (body : option string) (apiKey : option string)
  : M History TerritoriesResponse :=
  match apiKey with
  | Some effectiveApiKey =>
      if truthy effectiveApiKey then
        response <- fetchZenbooker endpoint method (sentBody method body)
                      effectiveApiKey ;;
        if negb (ok response) then
          errorText <- (fun h => (text response, h)) ;;
          throw (ErrorObj ("Zenbooker API Error (" ++ showNumber (status response)
                             ++ "): " ++ errorText))
        else
          fun h => (json response, h)
      else
        throw (ErrorObj "Zenbooker API key is required. Please set the ZENBOOKER_API_KEY environment variable.")
  | None =>
      throw (ErrorObj "Zenbooker API key is required. Please set the ZENBOOKER_API_KEY environment variable.")
  end.

(** *** The handler of checkTerritoryCoverageTool *)

(** [twb.boundaries && twb.boundaries.length >= 3] and, under that guard,
    [isPointInPolygon(addressCoords, twb.boundaries)]. *)
Definition isInside (addressCoords : Coordinates)
    (territoryWithBoundaries : TerritoryWithBoundaries) : bool :=
  match boundaries territoryWithBoundaries with
  | Some polygon =>
      (3 <=? List.length polygon)%nat && isPointInPolygon addressCoords polygon
  | None => false
  end.

(** The update of [closestTerritory] in one iteration. *)
Definition trackClosest (addressCoords : Coordinates)
    (territoryWithBoundaries : TerritoryWithBoundaries)
    (closest : option (TerritoryWithBoundaries * float))
  : option (TerritoryWithBoundaries * float) :=
  match center territoryWithBoundaries with
  | Some c =>
      let distance := getDistance addressCoords c in
      match closest with
      | None => Some (territoryWithBoundaries, distance)
      | Some (_, closestDistance) =>
          if PrimFloat.ltb distance closestDistance
          then Some (territoryWithBoundaries, distance)
          else closest
      end
  | None => closest
  end.

(** The object pushed on [results] at the end of an iteration. *)
Definition analysisOf (addressCoords : Coordinates) (territory : Territory)
    (territoryWithBoundaries : TerritoryWithBoundaries) : Analysis :=
  {| territory_id := id territory;
     territory_name := name territory;
     is_covered := false;
     distance_meters :=
       match center territoryWithBoundaries with
       | Some c => Some (getDistance addressCoords c)
       | None => None
       end |}.

(** The loop variables after an iteration that reaches its end: the entry
    pushed on [results] and the update of [closestTerritory]. *)
Definition notCovering (addressCoords : Coordinates) (territory : Territory)
    (territoryWithBoundaries : TerritoryWithBoundaries) (vars : LoopVars)
  : LoopVars :=
  {| results_var :=
       results_var vars
         ++ [analysisOf addressCoords territory territoryWithBoundaries];
     coveredByTerritory := coveredByTerritory vars;
     closestTerritory :=
       trackClosest addressCoords territoryWithBoundaries
         (closestTerritory vars) |}.

(** The loop variables when the iteration breaks:
    [coveredByTerritory = territoryWithBoundaries]. *)
Definition covering (territoryWithBoundaries : TerritoryWithBoundaries)
    (vars : LoopVars) : LoopVars :=
  {| results_var := results_var vars;
     coveredByTerritory := Some territoryWithBoundaries;
     closestTerritory := closestTerritory vars |}.

(** The [for (const territory of territoriesResponse.results)] loop, with
    its [continue] for inactive territories and its [break] on coverage. *)
Fixpoint scanTerritories (addressCoords : Coordinates)
    (territories : list Territory) (vars : LoopVars) : M History LoopVars :=
  match territories with
  | [] => ret vars
  | territory :: rest =>
      if negb (active territory) then
        scanTerritories addressCoords rest vars
      else
        territoryWithBoundaries <- createTerritoryBoundaries territory ;;
        if isInside addressCoords territoryWithBoundaries then
          ret (covering territoryWithBoundaries vars)
        else
          scanTerritories addressCoords rest
            (notCovering addressCoords territory territoryWithBoundaries vars)
  end.

Definition initialVars : LoopVars :=
  {| results_var := []; coveredByTerritory := None; closestTerritory := None |}.

(** The [response] object built after the loop. *)
Definition formatResponse (paramsAddress : string) (addressCoords : Coordinates)
    (vars : LoopVars) : CoverageResponse :=
  {| address := paramsAddress;
     coordinates := addressCoords;
     coverage_status :=
       match coveredByTerritory vars with
       | Some _ => "covered"
       | None => "not_covered"
       end;
     covered_by_territory :=
       match coveredByTerritory vars with
       | Some covered =>
           Some {| cb_id := id (territory_of covered);
                   cb_name := name (territory_of covered);
                   cb_description := description (territory_of covered);
                   cb_zip_codes := zip_codes (territory_of covered);
                   cb_cities := cities (territory_of covered);
                   cb_states := states (territory_of covered) |}
       | None => None
       end;
     closest_territory :=
       match closestTerritory vars with
       | Some (closest, distance) =>
           Some {| cl_id := id (territory_of closest);
                   cl_name := name (territory_of closest);
                   cl_distance_meters := distance;
                   cl_distance_miles :=
                     PrimFloat.div
                       (Math_round
                          (PrimFloat.mul (PrimFloat.mul distance 0.000621371%float)
                             100%float))
                       100%float |}
       | None => None
       end;
     all_territories_checked := List.length (results_var vars);
     territories_analysis := results_var vars |}.

(** The handler's [try] block up to the construction of [response]. *)
Definition coverageResponse (paramsAddress : string) (apiKey : option string)
  : M History CoverageResponse :=
  addressCoords <- geocodeAddress paramsAddress ;;
  territoriesResponse <- makeZenbookerRequest "/territories" "GET" None apiKey ;;
  vars <- scanTerritories addressCoords (results territoriesResponse) initialVars ;;
  ret (formatResponse paramsAddress addressCoords vars).

Definition errorResult (error : Thrown) : ToolResult :=
  {| content :=
       [ {| type := "text";
            text_of := "❌ **Error checking territory coverage**: "
                         ++ messageOf error |} ];
     isError := Some true |}.

Definition checkTerritoryCoverageTool_handler (paramsAddress : string)
    (apiKey : option string) : M History ToolResult :=
  try_catch
    (response <- coverageResponse paramsAddress apiKey ;;
     ret {| content := [ {| type := "text"; text_of := renderCoverage response |} ];
            isError := None |})
    (fun error => ret (errorResult error)).

(** ** Reading a run off the history *)

(** What [geocodeAddress] makes of the reply it receives. *)
Definition geocodeOutcome (address : string) (reply : NominatimReply)
  : Completion Coordinates :=
  match reply with
  | Throw rejection =>
      Throw (ErrorObj ("Geocoding failed: " ++ messageOf rejection))
  | Normal response =>
      if ok response then
        match json response with
        | Throw rejection =>
            Throw (ErrorObj ("Geocoding failed: " ++ messageOf rejection))
        | Normal (Some (first :: _)) =>
            Normal {| latitude := parseFloat (lat first);
                      longitude := parseFloat (lon first) |}
        | Normal _ =>
            Throw (ErrorObj ("Geocoding failed: Could not geocode address: "
                               ++ address))
        end
      else
        Throw (ErrorObj ("Geocoding failed: Geocoding HTTP "
                           ++ showNumber (status response) ++ ": "
                           ++ statusText response))
  end.

(** The point a call produced, when it is a geocoding lookup that
    succeeded. *)
Definition geocoded (c : Call) : option Coordinates :=
  match c with
  | NominatimCall q reply =>
      match geocodeOutcome q reply with
      | Normal coords => Some coords
      | Throw _ => None
      end
  | ZenbookerCall _ _ _ _ _ => None
  end.

(** The points of the successful geocoding lookups among [calls], in the
    order of the calls. *)
Fixpoint successes (calls : list Call) : list Coordinates :=
  match calls with
  | [] => []
  | c :: rest =>
      match geocoded c with
      | Some coords => coords :: successes rest
      | None => successes rest
      end
  end.

(** Is the call a request to the Zenbooker API? *)
Definition isZenbookerCall (c : Call) : bool :=
  match c with
  | ZenbookerCall _ _ _ _ _ => true
  | NominatimCall _ _ => false
  end.

(** The query of a geocoding lookup, the endpoint of a Zenbooker request. *)
Definition queryOf (c : Call) : string :=
  match c with
  | NominatimCall q _ => q
  | ZenbookerCall endpoint _ _ _ _ => endpoint
  end.

(** The message of the error [makeZenbookerRequest] throws without a key. *)
Definition missingKeyMessage : string :=
  "Zenbooker API key is required. Please set the ZENBOOKER_API_KEY environment variable.".

(** The local variables after one more lookup with outcome [o]. *)
Definition addPoint (l : Locals) (o : Completion Coordinates) : Locals :=
  match o with
  | Normal coords =>
      {| boundaries_var := boundaries_var l ++ [coords];
         center_var := match center_var l with
                       | None => Some coords
                       | Some c => Some c
                       end |}
  | Throw _ => l
  end.

(** The local variables after the lookups [calls]. *)
Definition addPoints (l : Locals) (calls : list Call) : Locals :=
  {| boundaries_var := boundaries_var l ++ successes calls;
     center_var := match center_var l with
                   | None => hd_error (successes calls)
                   | Some c => Some c
                   end |}.

(** The polygon returned for the raw points [points]. *)
Definition polygonOf (points : list Coordinates) : option (list Coordinates) :=
  if (3 <=? List.length points)%nat then Some points
  else match hd_error points with
       | Some c => Some (points ++ squareAround c)
       | None => None
       end.

(** [examined p h ts h']: starting from the history [h], the territories
    [ts] are gone through in list order; an inactive one is passed over
    without any call, the boundaries of an active one are built when its turn
    comes and do not contain [p]; [h'] is the history reached at the end. *)
Inductive examined (p : Coordinates) : History -> list Territory -> History -> Prop :=
| examined_nil (h : History) : examined p h [] h
| examined_inactive (h h' : History) (t : Territory) (ts : list Territory) :
    active t = false ->
    examined p h ts h' ->
    examined p h (t :: ts) h'
| examined_active (h h1 h' : History) (t : Territory) (ts : list Territory)
    (twb : TerritoryWithBoundaries) :
    active t = true ->
    createTerritoryBoundaries t h = (Normal twb, h1) ->
    isInside p twb = false ->
    examined p h1 ts h' ->
    examined p h (t :: ts) h'.

(** The fields of the entries of [results] that do not depend on the
    distance. *)
Definition entryKey (a : Analysis) : string * string * bool :=
  (territory_id a, territory_name a, is_covered a).

(** The entry expected for a territory that was examined and does not
    cover. *)
Definition expectedKey (t : Territory) : string * string * bool :=
  (id t, name t, false).

(** The closest territory agrees with the entries of [results]: there is
    none exactly when no entry has a distance, and the one there is has a
    center, its distance is the distance to that center, and it has its
    entry, with that distance, in [results]. *)
Definition closestRecorded (p : Coordinates) (vars : LoopVars) : Prop :=
  (closestTerritory vars = None
   <-> Forall (fun a => distance_meters a = None) (results_var vars))
  /\ (forall twb d,
        closestTerritory vars = Some (twb, d) ->
        exists c,
          center twb = Some c
          /\ d = getDistance p c
          /\ In {| territory_id := id (territory_of twb);
                   territory_name := name (territory_of twb);
                   is_covered := false;
                   distance_meters := Some d |}
                (results_var vars)).

(** ** Runs of [geocodeAddress] and [createTerritoryBoundaries] *)

Unset Implicit Arguments.

Lemma geocodeAddress_run (a : string) (h : History) :
  geocodeAddress a h
  = (geocodeOutcome a (nominatim h a), h ++ [NominatimCall a (nominatim h a)]).
Proof.
  unfold geocodeAddress, try_catch, bind, fetchNominatim, geocodeOutcome, throw, ret.
  destruct (nominatim h a) as [response | rejection]; [ | reflexivity ].
  destruct (ok response); simpl; [ | reflexivity ].
  destruct (json response) as [[[ | first rest] | ] | rejection]; reflexivity.
Qed.

Lemma successes_app (xs ys : list Call) :
  successes (xs ++ ys) = successes xs ++ successes ys.
Proof.
  induction xs as [ | c xs IH]; simpl; [ reflexivity | ].
  destruct (geocoded c); simpl; now rewrite IH.
Qed.

Lemma addPoints_nil (l : Locals) : addPoints l [] = l.
Proof.
  destruct l as [b [c | ]]; unfold addPoints; simpl; now rewrite app_nil_r.
Qed.

Lemma addPoints_cons (l : Locals) (q : string) (reply : NominatimReply)
    (calls : list Call) :
  addPoints (addPoint l (geocodeOutcome q reply)) calls
  = addPoints l (NominatimCall q reply :: calls).
Proof.
  unfold addPoints, addPoint; simpl.
  destruct (geocodeOutcome q reply) as [coords | e]; simpl; [ | reflexivity ].
  rewrite <- app_assoc; simpl.
  now destruct (center_var l).
Qed.

Lemma addPoints_app (l : Locals) (xs ys : list Call) :
  addPoints (addPoints l xs) ys = addPoints l (xs ++ ys).
Proof.
  unfold addPoints; simpl. rewrite successes_app, app_assoc.
  destruct (center_var l); [ reflexivity | ].
  destruct (successes xs); reflexivity.
Qed.

Lemma tryGeocode_run (q : string) (h : History) (l : Locals) :
  tryGeocode q (h, l)
  = (Normal tt,
     (h ++ [NominatimCall q (nominatim h q)],
      addPoint l (geocodeOutcome q (nominatim h q)))).
Proof.
  unfold tryGeocode, try_catch, bind, liftH; simpl.
  rewrite geocodeAddress_run.
  destruct (geocodeOutcome q (nominatim h q)) as [coords | e]; simpl;
    [ | reflexivity ].
  destruct (center_var l); reflexivity.
Qed.

(** A loop of guarded lookups never throws; it issues only geocoding
    lookups, one per query, and collects the points of those that
    succeeded. *)
Lemma forOf_tryGeocode_run (A : Type) (mk : A -> string) (xs : list A) :
  forall (h : History) (l : Locals),
  exists calls,
    forOf xs (fun x => tryGeocode (mk x)) (h, l)
    = (Normal tt, (h ++ calls, addPoints l calls))
    /\ forallb (fun c => negb (isZenbookerCall c)) calls = true
    /\ List.length calls = List.length xs.
Proof.
  induction xs as [ | x xs IH]; intros h l.
  - exists []. simpl. unfold ret. now rewrite app_nil_r, addPoints_nil.
  - simpl. unfold bind. rewrite tryGeocode_run.
    destruct (IH (h ++ [NominatimCall (mk x) (nominatim h (mk x))])
                 (addPoint l (geocodeOutcome (mk x) (nominatim h (mk x)))))
      as (calls & Hrun & Hnom & Hlen).
    exists (NominatimCall (mk x) (nominatim h (mk x)) :: calls).
    rewrite Hrun, <- app_assoc, addPoints_cons. simpl.
    repeat split; [ exact Hnom | now rewrite Hlen ].
Qed.

Lemma guarded_loop_run (A : Type) (mk : A -> string) (c : bool) (xs : list A)
    (h : History) (l : Locals) :
  exists calls,
    when c (forOf xs (fun x => tryGeocode (mk x))) (h, l)
    = (Normal tt, (h ++ calls, addPoints l calls))
    /\ forallb (fun c => negb (isZenbookerCall c)) calls = true
    /\ List.length calls <= List.length xs.
Proof.
  destruct c; simpl.
  - destruct (forOf_tryGeocode_run A mk xs h l) as (calls & Hrun & Hnom & Hlen).
    exists calls. repeat split; [ exact Hrun | exact Hnom | lia ].
  - exists []. unfold ret. rewrite app_nil_r, addPoints_nil.
    repeat split. simpl. lia.
Qed.

Lemma length_firstn_le (A : Type) (n : nat) (xs : list A) :
  List.length (firstn n xs) <= n.
Proof. rewrite length_firstn. lia. Qed.

(** [createTerritoryBoundaries] always returns: it issues at most eight
    geocoding lookups and nothing else, and what it returns is determined
    by the points of the lookups that succeeded. *)
Lemma createTerritoryBoundaries_run (territory : Territory) (h : History) :
  exists calls,
    createTerritoryBoundaries territory h
    = (Normal {| territory_of := territory;
                 boundaries := polygonOf (successes calls);
                 center := hd_error (successes calls) |},
       h ++ calls)
    /\ forallb (fun c => negb (isZenbookerCall c)) calls = true
    /\ List.length calls <= 8.
Proof.
  destruct (guarded_loop_run string (fun z : string => z) (nonEmpty (zip_codes territory))
              (firstn 5 (orEmpty (zip_codes territory))) h
              {| boundaries_var := []; center_var := None |})
    as (zc & Hz & Hznom & Hzlen).
  destruct (guarded_loop_run string (cityAddress territory)
              (nonEmpty (cities territory)
               && (List.length
                     (boundaries_var
                        (addPoints {| boundaries_var := []; center_var := None |}
                           zc)) <? 3)%nat)
              (firstn 3 (orEmpty (cities territory))) (h ++ zc)
              (addPoints {| boundaries_var := []; center_var := None |} zc))
    as (cc & Hc & Hcnom & Hclen).
  exists (zc ++ cc).
  pose proof (length_firstn_le string 5 (orEmpty (zip_codes territory))) as H5.
  pose proof (length_firstn_le string 3 (orEmpty (cities territory))) as H3.
  split; [ | split ].
  - unfold createTerritoryBoundaries, createTerritoryBoundaries_body.
    unfold bind, try_catch. cbv beta in Hz. rewrite Hz.
    cbn [getLocals snd fst].
    rewrite Hc. rewrite addPoints_app, <- app_assoc.
    cbn [getLocals snd fst addPoints boundaries_var center_var app].
    unfold polygonOf, addPoints. cbn [boundaries_var center_var app].
    destruct (successes (zc ++ cc)) as [ | p0 [ | p1 [ | p2 rest]]];
      reflexivity.
  - rewrite forallb_app, Hznom, Hcnom. reflexivity.
  - rewrite length_app. lia.
Qed.

(** ** Runs of the handler's loop *)

Lemma createTerritoryBoundaries_normal (territory : Territory) (h : History) :
  exists twb calls,
    createTerritoryBoundaries territory h = (Normal twb, h ++ calls)
    /\ territory_of twb = territory
    /\ forallb (fun c => negb (isZenbookerCall c)) calls = true.
Proof.
  destruct (createTerritoryBoundaries_run territory h) as (calls & Hrun & Hnom & _).
  eexists; exists calls. split; [ exact Hrun | split; [ reflexivity | exact Hnom ] ].
Qed.

(** One step of the loop on an active territory. *)
Lemma scanTerritories_active (p : Coordinates) (t : Territory)
    (rest : list Territory) (vars : LoopVars) (h : History) :
  active t = true ->
  exists twb calls,
    createTerritoryBoundaries t h = (Normal twb, h ++ calls)
    /\ territory_of twb = t
    /\ forallb (fun c => negb (isZenbookerCall c)) calls = true
    /\ scanTerritories p (t :: rest) vars h
       = if isInside p twb then (Normal (covering twb vars), h ++ calls)
         else scanTerritories p rest (notCovering p t twb vars) (h ++ calls).
Proof.
  intros Hact.
  destruct (createTerritoryBoundaries_normal t h) as (twb & calls & Hrun & Ht & Hnom).
  exists twb, calls. repeat split; try assumption.
  simpl. rewrite Hact. simpl. unfold bind. rewrite Hrun.
  destruct (isInside p twb); reflexivity.
Qed.

Lemma scanTerritories_inactive (p : Coordinates) (t : Territory)
    (rest : list Territory) (vars : LoopVars) (h : History) :
  active t = false ->
  scanTerritories p (t :: rest) vars h = scanTerritories p rest vars h.
Proof. intros Hact. simpl. now rewrite Hact. Qed.

(** The loop never throws and issues only geocoding lookups. *)
Lemma scanTerritories_total (p : Coordinates) (ts : list Territory) :
  forall (vars : LoopVars) (h : History),
  exists vars' calls,
    scanTerritories p ts vars h = (Normal vars', h ++ calls)
    /\ forallb (fun c => negb (isZenbookerCall c)) calls = true.
Proof.
  induction ts as [ | t ts IH]; intros vars h.
  - exists vars, []. simpl. unfold ret. now rewrite app_nil_r.
  - destruct (active t) eqn:Hact.
    + destruct (scanTerritories_active p t ts vars h Hact)
        as (twb & calls & _ & _ & Hnom & Hstep).
      rewrite Hstep. destruct (isInside p twb).
      * exists (covering twb vars), calls. now split.
      * destruct (IH (notCovering p t twb vars) (h ++ calls))
          as (vars' & calls' & Hrun & Hnom').
        exists vars', (calls ++ calls'). rewrite Hrun, app_assoc.
        split; [ reflexivity | ]. now rewrite forallb_app, Hnom, Hnom'.
    + rewrite (scanTerritories_inactive p t ts vars h Hact). apply IH.
Qed.

Lemma scanTerritories_filter (p : Coordinates) (ts : list Territory) :
  forall (vars : LoopVars) (h : History),
  scanTerritories p ts vars h = scanTerritories p (filter active ts) vars h.
Proof.
  induction ts as [ | t ts IH]; intros vars h; [ reflexivity | ].
  destruct (active t) eqn:Hact.
  - cbn [filter]. rewrite Hact.
    destruct (scanTerritories_active p t ts vars h Hact)
      as (twb & calls & Hrun & _ & _ & Hstep).
    destruct (scanTerritories_active p t (filter active ts) vars h Hact)
      as (twb' & calls' & Hrun' & _ & _ & Hstep').
    rewrite Hstep, Hstep'. rewrite Hrun in Hrun'.
    injection Hrun' as Htwb Hh. subst twb'. rewrite <- Hh.
    destruct (isInside p twb); [ reflexivity | apply IH ].
  - rewrite (scanTerritories_inactive p t ts vars h Hact).
    cbn [filter]. rewrite Hact. apply IH.
Qed.

(** Scanning a list in two pieces: the second piece is scanned only when
    the first one did not break. *)
Lemma scanTerritories_app (p : Coordinates) (l1 l2 : list Territory) :
  forall (vars : LoopVars) (h : History),
  coveredByTerritory vars = None ->
  scanTerritories p (l1 ++ l2) vars h
  = match scanTerritories p l1 vars h with
    | (Normal v, h1) =>
        match coveredByTerritory v with
        | Some _ => (Normal v, h1)
        | None => scanTerritories p l2 v h1
        end
    | (Throw e, h1) => (Throw e, h1)
    end.
Proof.
  induction l1 as [ | t l1 IH]; intros vars h Hnone.
  - simpl. unfold ret. now rewrite Hnone.
  - rewrite <- app_comm_cons. destruct (active t) eqn:Hact.
    + destruct (scanTerritories_active p t (l1 ++ l2) vars h Hact)
        as (twb & calls & Hrun & _ & _ & Hstep).
      destruct (scanTerritories_active p t l1 vars h Hact)
        as (twb' & calls' & Hrun' & _ & _ & Hstep').
      rewrite Hstep, Hstep'. rewrite Hrun in Hrun'.
      injection Hrun' as Htwb Hh. subst twb'. rewrite <- Hh.
      destruct (isInside p twb); [ reflexivity | ].
      apply IH. exact Hnone.
    + rewrite (scanTerritories_inactive p t (l1 ++ l2) vars h Hact),
        (scanTerritories_inactive p t l1 vars h Hact). now apply IH.
Qed.

(** A run that ends without a covering territory started without one, and
    pushed one entry for every active territory, in list order. *)
Lemma scanTerritories_uncovered (p : Coordinates) (ts : list Territory) :
  forall (vars v : LoopVars) (h h' : History),
  scanTerritories p ts vars h = (Normal v, h') ->
  coveredByTerritory v = None ->
  coveredByTerritory vars = None
  /\ map entryKey (results_var v)
     = map entryKey (results_var vars) ++ map expectedKey (filter active ts).
Proof.
  induction ts as [ | t ts IH]; intros vars v h h' Hrun Hv.
  - simpl in Hrun. injection Hrun as Hvars _. subst v.
    split; [ exact Hv | ]. simpl. now rewrite app_nil_r.
  - destruct (active t) eqn:Hact.
    + destruct (scanTerritories_active p t ts vars h Hact)
        as (twb & calls & _ & _ & _ & Hstep).
      rewrite Hstep in Hrun. destruct (isInside p twb).
      * injection Hrun as Hvars _. subst v. discriminate Hv.
      * destruct (IH _ _ _ _ Hrun Hv) as (Hnone & Hres).
        split; [ exact Hnone | ].
        rewrite Hres. cbn [filter]. rewrite Hact. cbn [notCovering results_var].
        rewrite map_app, <- app_assoc. reflexivity.
    + rewrite (scanTerritories_inactive p t ts vars h Hact) in Hrun.
      cbn [filter]. rewrite Hact. eapply IH; eassumption.
Qed.

(** A run that ends with a covering territory broke at some active
    territory [t]: the territories before [t] were scanned without a break,
    and the run ended right after the boundaries of [t] were built. *)
Lemma scanTerritories_covered (p : Coordinates) (ts : list Territory) :
  forall (vars v : LoopVars) (h h' : History) (twb : TerritoryWithBoundaries),
  coveredByTerritory vars = None ->
  scanTerritories p ts vars h = (Normal v, h') ->
  coveredByTerritory v = Some twb ->
  exists pre t post vm hm,
    ts = pre ++ t :: post
    /\ active t = true
    /\ scanTerritories p pre vars h = (Normal vm, hm)
    /\ coveredByTerritory vm = None
    /\ createTerritoryBoundaries t hm = (Normal twb, h')
    /\ territory_of twb = t
    /\ isInside p twb = true
    /\ v = covering twb vm.
Proof.
  induction ts as [ | t ts IH]; intros vars v h h' twb Hnone Hrun Hv.
  - simpl in Hrun. injection Hrun as Hvars _. subst v. congruence.
  - destruct (active t) eqn:Hact.
    + destruct (scanTerritories_active p t ts vars h Hact)
        as (twb0 & calls & Hcreate & Hof & _ & Hstep).
      rewrite Hstep in Hrun. destruct (isInside p twb0) eqn:Hin.
      * injection Hrun as Hvars Hh. subst v h'. simpl in Hv.
        injection Hv as Htwb. subst twb0.
        exists [], t, ts, vars, h. repeat split; try assumption.
      * destruct (IH (notCovering p t twb0 vars) _ _ _ _ Hnone Hrun Hv)
          as (pre & u & post & vm & hm & Hts & Hu & Hpre & Hvm & Hcu & Hou & Hiu & Hveq).
        exists (t :: pre), u, post, vm, hm. repeat split; try assumption.
        -- now rewrite Hts.
        -- destruct (scanTerritories_active p t pre vars h Hact)
             as (twb1 & calls1 & Hcreate1 & _ & _ & Hstep1).
           rewrite Hstep1. rewrite Hcreate in Hcreate1.
           injection Hcreate1 as Htwb Hh. subst twb1. rewrite <- Hh, Hin.
           exact Hpre.
    + rewrite (scanTerritories_inactive p t ts vars h Hact) in Hrun.
      destruct (IH _ _ _ _ _ Hnone Hrun Hv)
        as (pre & u & post & vm & hm & Hts & Hu & Hpre & Hvm & Hcu & Hou & Hiu & Hveq).
      exists (t :: pre), u, post, vm, hm. repeat split; try assumption.
      * now rewrite Hts.
      * now rewrite (scanTerritories_inactive p t pre vars h Hact).
Qed.

(** A run of the loop that does not break is an examination in which no
    active territory contains the point, and conversely. *)
Lemma scanTerritories_examined (p : Coordinates) (ts : list Territory) :
  forall (vars v : LoopVars) (h h' : History),
  scanTerritories p ts vars h = (Normal v, h') ->
  coveredByTerritory v = None ->
  examined p h ts h'.
Proof.
  induction ts as [ | t ts IH]; intros vars v h h' Hrun Hv.
  - simpl in Hrun. injection Hrun as _ Hh. subst h'. constructor.
  - destruct (active t) eqn:Hact.
    + destruct (scanTerritories_active p t ts vars h Hact)
        as (twb & calls & Hcreate & _ & _ & Hstep).
      rewrite Hstep in Hrun. destruct (isInside p twb) eqn:Hin.
      * injection Hrun as Hvars _. subst v. discriminate Hv.
      * eapply examined_active; try eassumption. eapply IH; eassumption.
    + rewrite (scanTerritories_inactive p t ts vars h Hact) in Hrun.
      apply examined_inactive; [ exact Hact | eapply IH; eassumption ].
Qed.

Lemma examined_scanTerritories (p : Coordinates) (ts : list Territory)
    (h h' : History) :
  examined p h ts h' ->
  forall vars : LoopVars,
  exists v,
    scanTerritories p ts vars h = (Normal v, h')
    /\ coveredByTerritory v = coveredByTerritory vars.
Proof.
  induction 1 as [ h | h h' t ts Hact _ IH | h h1 h' t ts twb Hact Hcreate Hin _ IH ];
    intros vars.
  - exists vars. split; reflexivity.
  - destruct (IH vars) as (v & Hrun & Hv). exists v.
    now rewrite (scanTerritories_inactive p t ts vars h Hact).
  - destruct (IH (notCovering p t twb vars)) as (v & Hrun & Hv). exists v.
    split; [ | exact Hv ].
    destruct (scanTerritories_active p t ts vars h Hact)
      as (twb' & calls & Hcreate' & _ & _ & Hstep).
    rewrite Hstep. rewrite Hcreate in Hcreate'.
    injection Hcreate' as Htwb Hh. subst twb'. rewrite <- Hh, Hin. exact Hrun.
Qed.

(** The territory recorded as covering, and the one recorded as closest,
    are active territories of the list, unless they were recorded before. *)
Lemma scanTerritories_sources (p : Coordinates) (ts : list Territory) :
  forall (vars v : LoopVars) (h h' : History),
  scanTerritories p ts vars h = (Normal v, h') ->
  (forall twb, coveredByTerritory v = Some twb ->
     coveredByTerritory vars = Some twb
     \/ (In (territory_of twb) ts /\ active (territory_of twb) = true))
  /\ (forall twb d, closestTerritory v = Some (twb, d) ->
        closestTerritory vars = Some (twb, d)
        \/ (In (territory_of twb) ts /\ active (territory_of twb) = true)).
Proof.
  induction ts as [ | t ts IH]; intros vars v h h' Hrun.
  - simpl in Hrun. injection Hrun as Hvars _. subst v. split; intros; now left.
  - destruct (active t) eqn:Hact.
    + destruct (scanTerritories_active p t ts vars h Hact)
        as (twb0 & calls & _ & Hof & _ & Hstep).
      rewrite Hstep in Hrun. destruct (isInside p twb0).
      * injection Hrun as Hvars _. subst v. simpl. split.
        -- intros twb Htwb. injection Htwb as Htwb. subst twb. right.
           rewrite Hof. split; [ now left | exact Hact ].
        -- intros twb d Hc. now left.
      * destruct (IH _ _ _ _ Hrun) as (Hcov & Hclo). split.
        -- intros twb Htwb. destruct (Hcov twb Htwb) as [Hold | (Hin & Ha)].
           ++ now left.
           ++ right. split; [ now right | exact Ha ].
        -- intros twb d Hc. destruct (Hclo twb d Hc) as [Hold | (Hin & Ha)].
           ++ simpl in Hold. unfold trackClosest in Hold.
              assert (Hnew : Some (twb0, getDistance p
                                     match center twb0 with
                                     | Some c => c
                                     | None => p
                                     end) = Some (twb, d)
                             -> In (territory_of twb) (t :: ts)
                                /\ active (territory_of twb) = true).
              { intros Heq. injection Heq as Htwb _. subst twb.
                rewrite Hof. split; [ now left | exact Hact ]. }
              destruct (center twb0) as [c | ]; [ | now left ].
              destruct (closestTerritory vars) as [[otwb od] | ];
                [ | right; now apply Hnew ].
              destruct (PrimFloat.ltb (getDistance p c) od);
                [ right; now apply Hnew | now left ].
           ++ right. split; [ now right | exact Ha ].
    + rewrite (scanTerritories_inactive p t ts vars h Hact) in Hrun.
      destruct (IH _ _ _ _ Hrun) as (Hcov & Hclo). split.
      * intros twb Htwb. destruct (Hcov twb Htwb) as [Hold | (Hin & Ha)];
          [ now left | right; split; [ now right | exact Ha ] ].
      * intros twb d Hc. destruct (Hclo twb d Hc) as [Hold | (Hin & Ha)];
          [ now left | right; split; [ now right | exact Ha ] ].
Qed.

(** What a run of [createTerritoryBoundaries] returns, read off the calls
    it added to the history. *)
Lemma createTerritoryBoundaries_inv (territory : Territory) (h calls : History)
    (r : Completion TerritoryWithBoundaries) :
  createTerritoryBoundaries territory h = (r, h ++ calls) ->
  r = Normal {| territory_of := territory;
                boundaries := polygonOf (successes calls);
                center := hd_error (successes calls) |}
  /\ forallb (fun c => negb (isZenbookerCall c)) calls = true
  /\ List.length calls <= 8.
Proof.
  intros Hrun.
  destruct (createTerritoryBoundaries_run territory h) as (calls0 & Hrun0 & Hnom & Hlen).
  rewrite Hrun0 in Hrun. injection Hrun as Hr Hh.
  apply app_inv_head in Hh. subst calls0. now split.
Qed.

Lemma successes_In (calls : list Call) (point : Coordinates) :
  In point (successes calls)
  <-> exists c, In c calls /\ geocoded c = Some point.
Proof.
  induction calls as [ | c calls IH]; simpl.
  - split; [ intros [] | intros (c & [] & _) ].
  - destruct (geocoded c) as [q | ] eqn:Hc; simpl; rewrite IH; split.
    + intros [Heq | (c' & Hin & Hg)].
      * subst q. exists c. split; [ now left | exact Hc ].
      * exists c'. split; [ now right | exact Hg ].
    + intros (c' & [Heq | Hin] & Hg).
      * subst c'. left. congruence.
      * right. exists c'. now split.
    + intros (c' & Hin & Hg). exists c'. split; [ now right | exact Hg ].
    + intros (c' & [Heq | Hin] & Hg).
      * subst c'. congruence.
      * exists c'. now split.
Qed.

(** The polygon returned when one or two lookups succeeded: the raw points
    stay in front of the four corners. *)
Lemma polygonOf_fallback (points : list Coordinates) :
  1 <= List.length points <= 2 ->
  exists c,
    hd_error points = Some c
    /\ polygonOf points = Some (points ++ squareAround c)
    /\ List.length (points ++ squareAround c) = List.length points + 4.
Proof.
  intros Hlen. unfold polygonOf.
  destruct points as [ | c [ | c' [ | c'' rest]]]; simpl in *; try lia;
    exists c; repeat split.
Qed.

Lemma polygonOf_square_inv (points : list Coordinates) (c : Coordinates) :
  polygonOf points = Some (points ++ squareAround c) ->
  1 <= List.length points <= 2.
Proof.
  unfold polygonOf. destruct (3 <=? List.length points)%nat eqn:Hlen.
  - intros Heq. injection Heq as Heq.
    apply (f_equal (@List.length Coordinates)) in Heq.
    rewrite length_app in Heq. simpl in Heq. lia.
  - apply Nat.leb_gt in Hlen. destruct points as [ | c0 rest]; simpl in *.
    + discriminate.
    + intros _. lia.
Qed.

(** The handler's [try] block, step by step. *)
Lemma coverageResponse_run (a : string) (apiKey : option string) (h : History) :
  coverageResponse a apiKey h
  = match geocodeOutcome a (nominatim h a) with
    | Throw e => (Throw e, h ++ [NominatimCall a (nominatim h a)])
    | Normal coords =>
        match makeZenbookerRequest "/territories" "GET" None apiKey
                (h ++ [NominatimCall a (nominatim h a)]) with
        | (Throw e, h2) => (Throw e, h2)
        | (Normal territoriesResponse, h2) =>
            match scanTerritories coords (results territoriesResponse)
                    initialVars h2 with
            | (Normal vars, h3) => (Normal (formatResponse a coords vars), h3)
            | (Throw e, h3) => (Throw e, h3)
            end
        end
    end.
Proof.
  unfold coverageResponse, bind. rewrite geocodeAddress_run.
  destruct (geocodeOutcome a (nominatim h a)) as [coords | e]; [ | reflexivity ].
  destruct (makeZenbookerRequest "/territories" "GET" None apiKey
              (h ++ [NominatimCall a (nominatim h a)]))
    as [[territoriesResponse | e] h2]; [ | reflexivity ].
  destruct (scanTerritories coords (results territoriesResponse) initialVars h2)
    as [[vars | e] h3]; reflexivity.
Qed.

Lemma forOf_tryGeocode_queries (A : Type) (mk : A -> string) (xs : list A) :
  forall (h : History) (l : Locals),
  exists calls,
    forOf xs (fun x => tryGeocode (mk x)) (h, l)
    = (Normal tt, (h ++ calls, addPoints l calls))
    /\ map queryOf calls = map mk xs.
Proof.
  induction xs as [ | x xs IH]; intros h l.
  - exists []. simpl. unfold ret. now rewrite app_nil_r, addPoints_nil.
  - simpl. unfold bind. rewrite tryGeocode_run.
    destruct (IH (h ++ [NominatimCall (mk x) (nominatim h (mk x))])
                 (addPoint l (geocodeOutcome (mk x) (nominatim h (mk x)))))
      as (calls & Hrun & Hq).
    exists (NominatimCall (mk x) (nominatim h (mk x)) :: calls).
    rewrite Hrun, <- app_assoc, addPoints_cons. simpl.
    split; [ reflexivity | now rewrite Hq ].
Qed.

Lemma guarded_loop_queries (A : Type) (mk : A -> string) (c : bool) (xs : list A)
    (h : History) (l : Locals) :
  exists calls,
    when c (forOf xs (fun x => tryGeocode (mk x))) (h, l)
    = (Normal tt, (h ++ calls, addPoints l calls))
    /\ map queryOf calls = if c then map mk xs else [].
Proof.
  destruct c; simpl.
  - apply forOf_tryGeocode_queries.
  - exists []. unfold ret. now rewrite app_nil_r, addPoints_nil.
Qed.

Lemma successes_length (calls : list Call) :
  List.length (successes calls) <= List.length calls.
Proof.
  induction calls as [ | c calls IH]; simpl; [ lia | ].
  destruct (geocoded c); simpl; lia.
Qed.

(** The run of [createTerritoryBoundaries], lookup by lookup: first the
    postal codes, then the cities. *)
Lemma createTerritoryBoundaries_shape (territory : Territory) (h : History) :
  exists zipCalls cityCalls,
    createTerritoryBoundaries territory h
    = (Normal {| territory_of := territory;
                 boundaries := polygonOf (successes (zipCalls ++ cityCalls));
                 center := hd_error (successes (zipCalls ++ cityCalls)) |},
       h ++ zipCalls ++ cityCalls)
    /\ map queryOf zipCalls = firstn 5 (orEmpty (zip_codes territory))
    /\ map queryOf cityCalls
       = (if (List.length (successes zipCalls) <? 3)%nat
          then map (cityAddress territory) (firstn 3 (orEmpty (cities territory)))
          else []).
Proof.
  destruct (guarded_loop_queries string (fun z : string => z)
              (nonEmpty (zip_codes territory))
              (firstn 5 (orEmpty (zip_codes territory))) h
              {| boundaries_var := []; center_var := None |})
    as (zc & Hz & Hzq).
  destruct (guarded_loop_queries string (cityAddress territory)
              (nonEmpty (cities territory)
               && (List.length
                     (boundaries_var
                        (addPoints {| boundaries_var := []; center_var := None |}
                           zc)) <? 3)%nat)
              (firstn 3 (orEmpty (cities territory))) (h ++ zc)
              (addPoints {| boundaries_var := []; center_var := None |} zc))
    as (cc & Hc & Hcq).
  exists zc, cc. split; [ | split ].
  - unfold createTerritoryBoundaries, createTerritoryBoundaries_body.
    unfold bind, try_catch. cbv beta in Hz. rewrite Hz.
    cbn [getLocals snd fst].
    rewrite Hc. rewrite addPoints_app, <- app_assoc.
    cbn [getLocals snd fst].
    unfold polygonOf, addPoints. cbn [boundaries_var center_var app].
    destruct (successes (zc ++ cc)) as [ | p0 [ | p1 [ | p2 rest]]];
      reflexivity.
  - rewrite Hzq, map_id. destruct (zip_codes territory) as [[ | z zs] | ];
      reflexivity.
  - rewrite Hcq. simpl boundaries_var.
    destruct (nonEmpty (cities territory)) eqn:Hne; simpl; [ reflexivity | ].
    destruct (cities territory) as [[ | c cs] | ]; try discriminate Hne;
      now destruct (List.length (successes zc) <? 3)%nat.
Qed.

(** ** The claims *)

(** C2: the territory the loop records as covering is the first one, in
    list order, that is active and whose boundaries, built when its turn
    comes, have at least three vertices and contain the point; the run ends
    with the history reached right after building those boundaries, so no
    later territory is synthesized or tested. *)
Theorem first_covering_territory_wins (p : Coordinates) (ts : list Territory)
    (h h' : History) (twb : TerritoryWithBoundaries) :
  (exists v,
     scanTerritories p ts initialVars h = (Normal v, h')
     /\ coveredByTerritory v = Some twb)
  <-> (exists pre t post hm,
         ts = pre ++ t :: post
         /\ examined p h pre hm
         /\ active t = true
         /\ createTerritoryBoundaries t hm = (Normal twb, h')
         /\ isInside p twb = true).
Proof.
  split.
  - intros (v & Hrun & Hv).
    destruct (scanTerritories_covered p ts initialVars v h h' twb
                eq_refl Hrun Hv)
      as (pre & t & post & vm & hm & Hts & Hact & Hpre & Hvm & Hcreate & _ & Hin & _).
    exists pre, t, post, hm. repeat split; try assumption.
    eapply scanTerritories_examined; eassumption.
  - intros (pre & t & post & hm & Hts & Hex & Hact & Hcreate & Hin).
    destruct (examined_scanTerritories p pre h hm Hex initialVars)
      as (vm & Hpre & Hvm).
    exists (covering twb vm). split; [ | reflexivity ].
    subst ts. rewrite (scanTerritories_app p pre (t :: post) initialVars h eq_refl).
    rewrite Hpre, Hvm. simpl coveredByTerritory. cbv iota.
    destruct (scanTerritories_active p t post vm hm Hact)
      as (twb' & calls & Hcreate' & _ & _ & Hstep).
    rewrite Hstep. rewrite Hcreate in Hcreate'.
    injection Hcreate' as Htwb Hh. subst twb'. now rewrite <- Hh, Hin.
Qed.

(** C5: an inactive territory is never examined (the run is the run on the
    active territories alone, with the same calls), it is never the covering
    territory nor the closest one, and a list whose active territories do
    not contain the point gives [not_covered] whatever its inactive
    territories are. *)
Theorem inactive_territories_are_skipped (p : Coordinates) (ts : list Territory)
    (h : History) :
  scanTerritories p ts initialVars h
  = scanTerritories p (filter active ts) initialVars h
  /\ (forall v h',
        scanTerritories p ts initialVars h = (Normal v, h') ->
        (forall twb, coveredByTerritory v = Some twb ->
           In (territory_of twb) ts /\ active (territory_of twb) = true)
        /\ (forall twb d, closestTerritory v = Some (twb, d) ->
              In (territory_of twb) ts /\ active (territory_of twb) = true))
  /\ (forall h' a,
        examined p h (filter active ts) h' ->
        exists v,
          scanTerritories p ts initialVars h = (Normal v, h')
          /\ coverage_status (formatResponse a p v) = "not_covered"
          /\ covered_by_territory (formatResponse a p v) = None).
Proof.
  split; [ apply scanTerritories_filter | split ].
  - intros v h' Hrun.
    destruct (scanTerritories_sources p ts initialVars v h h' Hrun) as (Hcov & Hclo).
    split.
    + intros twb Htwb. destruct (Hcov twb Htwb) as [Hold | Hnew];
        [ discriminate Hold | exact Hnew ].
    + intros twb d Hc. destruct (Hclo twb d Hc) as [Hold | Hnew];
        [ discriminate Hold | exact Hnew ].
  - intros h' a Hex.
    destruct (examined_scanTerritories p (filter active ts) h h' Hex initialVars)
      as (v & Hrun & Hv).
    exists v. rewrite scanTerritories_filter. split; [ exact Hrun | ].
    unfold formatResponse; simpl. rewrite Hv. simpl. now split.
Qed.

(** C9: when the status is [covered], the entries of [territories_analysis],
    counted by [all_territories_checked], are those of the active
    territories that come strictly before the covering one in the list: the
    covering territory and the territories after it have no entry. *)
Theorem covered_analysis_stops_before_covering (a : string) (p : Coordinates)
    (ts : list Territory) (h h' : History) (v : LoopVars) :
  scanTerritories p ts initialVars h = (Normal v, h') ->
  coverage_status (formatResponse a p v) = "covered" ->
  exists pre t post hm twb,
    ts = pre ++ t :: post
    /\ examined p h pre hm
    /\ active t = true
    /\ createTerritoryBoundaries t hm = (Normal twb, h')
    /\ coveredByTerritory v = Some twb
    /\ territory_of twb = t
    /\ all_territories_checked (formatResponse a p v)
       = List.length (filter active pre)
    /\ map entryKey (territories_analysis (formatResponse a p v))
       = map expectedKey (filter active pre).
Proof.
  intros Hrun Hstatus.
  destruct (coveredByTerritory v) as [twb | ] eqn:Hv.
  2:{ unfold formatResponse in Hstatus; simpl in Hstatus.
      rewrite Hv in Hstatus. discriminate Hstatus. }
  destruct (scanTerritories_covered p ts initialVars v h h' twb eq_refl Hrun Hv)
    as (pre & t & post & vm & hm & Hts & Hact & Hpre & Hvm & Hcreate & Hof & Hin & Hveq).
  destruct (scanTerritories_uncovered p pre initialVars vm h hm Hpre Hvm)
    as (_ & Hres).
  simpl in Hres.
  exists pre, t, post, hm, twb. repeat split; try assumption.
  - eapply scanTerritories_examined; eassumption.
  - unfold formatResponse; simpl. subst v. simpl.
    rewrite <- (length_map entryKey), Hres. now rewrite length_map.
  - unfold formatResponse; simpl. subst v. simpl. exact Hres.
Qed.

(** C4: when the lookup of the address is answered with a non-success
    status or with zero results, the handler returns the error-flagged
    result, whose only content is the message; the history grows by that one
    lookup, so the Zenbooker API is not called, and no coverage response is
    rendered. *)
Theorem failed_address_lookup_is_an_error (a : string) (apiKey : option string)
    (h : History) (response : Response (option (list GeocodingResult))) :
  nominatim h a = Normal response ->
  ok response = false \/ json response = Normal (Some []) ->
  checkTerritoryCoverageTool_handler a apiKey h
  = (Normal
       {| content :=
            [ {| type := "text";
                 text_of :=
                   "❌ **Error checking territory coverage**: "
                   ++ "Geocoding failed: "
                   ++ (if ok response
                       then "Could not geocode address: " ++ a
                       else "Geocoding HTTP " ++ showNumber (status response)
                              ++ ": " ++ statusText response) |} ];
          isError := Some true |},
     h ++ [NominatimCall a (Normal response)]).
Proof.
  intros Hreply Hfail.
  unfold checkTerritoryCoverageTool_handler, try_catch, bind.
  rewrite coverageResponse_run, Hreply. unfold geocodeOutcome.
  destruct (ok response) eqn:Hok.
  - destruct Hfail as [Hfalse | Hjson]; [ discriminate Hfalse | ].
    rewrite Hjson. reflexivity.
  - reflexivity.
Qed.

(** C6: when at least three lookups succeed, the boundaries returned are
    exactly the points of the successful lookups, in order: as many
    vertices as successes, and no corner of the fallback square. *)
Theorem three_successes_are_the_polygon (territory : Territory)
    (h calls : History) (twb : TerritoryWithBoundaries) :
  createTerritoryBoundaries territory h = (Normal twb, h ++ calls) ->
  3 <= List.length (successes calls) ->
  boundaries twb = Some (successes calls)
  /\ (exists polygon,
        boundaries twb = Some polygon
        /\ List.length polygon = List.length (successes calls)).
Proof.
  intros Hrun Hlen.
  destruct (createTerritoryBoundaries_inv territory h calls _ Hrun) as (Hr & _).
  injection Hr as Hr. subst twb. simpl. unfold polygonOf.
  apply Nat.leb_le in Hlen. rewrite Hlen.
  split; [ reflexivity | ]. exists (successes calls). now split.
Qed.


(** C10: the center returned is the point of the first lookup that
    succeeded; it is defined exactly when some lookup succeeded; and the
    four corners of the fallback square are appended exactly when one or two
    lookups succeeded, after the points of those lookups. *)
Theorem center_is_the_first_success (territory : Territory)
    (h calls : History) (twb : TerritoryWithBoundaries) :
  createTerritoryBoundaries territory h = (Normal twb, h ++ calls) ->
  center twb = hd_error (successes calls)
  /\ (center twb <> None
      <-> exists c point, In c calls /\ geocoded c = Some point)
  /\ ((exists c, boundaries twb = Some (successes calls ++ squareAround c))
      <-> 1 <= List.length (successes calls) <= 2).
Proof.
  intros Hrun.
  destruct (createTerritoryBoundaries_inv territory h calls _ Hrun) as (Hr & _).
  injection Hr as Hr. subst twb. simpl. split; [ reflexivity | split ].
  - split.
    + destruct (successes calls) as [ | point rest] eqn:Hs; simpl;
        [ congruence | intros _ ].
      assert (Hin : In point (successes calls)) by (rewrite Hs; now left).
      apply successes_In in Hin. destruct Hin as (c & Hin & Hg).
      now exists c, point.
    + intros (c & point & Hin & Hg).
      assert (Hp : In point (successes calls))
        by (apply successes_In; now exists c).
      destruct (successes calls); [ destruct Hp | simpl; congruence ].
  - split.
    + intros (c & Hc). eapply polygonOf_square_inv. exact Hc.
    + intros Hlen. destruct (polygonOf_fallback (successes calls) Hlen)
        as (c & _ & Hpoly & _).
      now exists c.
Qed.

(** ** Further properties of the module and of [makeZenbookerRequest] *)

(** Every error [geocodeAddress] throws, whatever went wrong (a rejected
    [fetch], a non-success status, a body that is not JSON, an empty or
    missing result list), is an [Error] whose message starts with
    "Geocoding failed: ". *)
Theorem geocodeAddress_errors_are_prefixed (a : string) (h h' : History)
    (e : Thrown) :
  geocodeAddress a h = (Throw e, h') ->
  exists message, e = ErrorObj ("Geocoding failed: " ++ message).
Proof.
  rewrite geocodeAddress_run. intros Hrun. injection Hrun as Hout _.
  unfold geocodeOutcome in Hout.
  destruct (nominatim h a) as [response | rejection].
  - destruct (ok response).
    + destruct (json response) as [[[ | first others] | ] | rejection];
        try discriminate Hout; injection Hout as He; subst e; eexists;
        reflexivity.
    + injection Hout as He. subst e. eexists. reflexivity.
  - injection Hout as He. subst e. eexists. reflexivity.
Qed.

(** For a well-formed address, when the reply has a success status and its
    JSON is a list with at least one candidate, [geocodeAddress] returns the
    coordinates parsed from the first candidate, whatever the other
    candidates are, after exactly one lookup, of the address it was
    given. *)
Theorem geocodeAddress_uses_first_candidate (a : string) (h : History)
    (response : Response (option (list GeocodingResult)))
    (first : GeocodingResult) (others : list GeocodingResult) :
  isWellFormed a = true ->
  nominatim h a = Normal response ->
  ok response = true ->
  json response = Normal (Some (first :: others)) ->
  geocodeAddress a h
  = (Normal {| latitude := parseFloat (lat first);
               longitude := parseFloat (lon first) |},
     h ++ [NominatimCall a (Normal response)]).
Proof.
  intros _ Hreply Hok Hjson. rewrite geocodeAddress_run.
  unfold geocodeOutcome. rewrite Hreply, Hok, Hjson. reflexivity.
Qed.

(** What [makeZenbookerRequest] does once it has a key. *)
Lemma makeZenbookerRequest_run (endpoint method : string) (body : option string)
    (k : string) (h : History) :
  truthy k = true ->
  makeZenbookerRequest endpoint method body (Some k) h
  = (match zenbooker h endpoint method (sentBody method body) k with
     | Throw rejection => Throw rejection
     | Normal response =>
         if ok response then json response
         else match text response with
              | Normal errorText =>
                  Throw (ErrorObj ("Zenbooker API Error ("
                                     ++ showNumber (status response) ++ "): "
                                     ++ errorText))
              | Throw rejection => Throw rejection
              end
     end,
     h ++ [ZenbookerCall endpoint method (sentBody method body) k
             (zenbooker h endpoint method (sentBody method body) k)]).
Proof.
  intros Hk. unfold makeZenbookerRequest, bind, fetchZenbooker, throw.
  rewrite Hk.
  destruct (zenbooker h endpoint method (sentBody method body) k)
    as [response | rejection]; [ | reflexivity ].
  destruct (ok response); simpl; [ reflexivity | ].
  destruct (text response); reflexivity.
Qed.

(** Without an API key, or with the empty string as key,
    [makeZenbookerRequest] throws before it issues any request. *)
Theorem makeZenbookerRequest_requires_key (endpoint method : string)
    (body apiKey : option string) (h : History) :
  apiKey = None \/ apiKey = Some "" ->
  makeZenbookerRequest endpoint method body apiKey h
  = (Throw (ErrorObj missingKeyMessage), h).
Proof. intros [Hkey | Hkey]; subst apiKey; reflexivity. Qed.

(** With a key, [makeZenbookerRequest] issues exactly one request, to the
    endpoint, with the method and the key it was given; a GET request never
    carries a body, any other method carries the body unchanged; and a reply
    without a success status is never returned as data. *)
Theorem makeZenbookerRequest_one_request (endpoint method : string)
    (body : option string) (k : string) (h : History) :
  truthy k = true ->
  exists sent reply,
    snd (makeZenbookerRequest endpoint method body (Some k) h)
    = h ++ [ZenbookerCall endpoint method sent k reply]
    /\ (String.eqb method "GET" = true -> sent = None)
    /\ (String.eqb method "GET" = false -> sent = body)
    /\ (forall data response,
          fst (makeZenbookerRequest endpoint method body (Some k) h) = Normal data ->
          reply = Normal response ->
          ok response = true /\ json response = Normal data).
Proof.
  intros Hk. rewrite (makeZenbookerRequest_run endpoint method body k h Hk).
  exists (sentBody method body),
         (zenbooker h endpoint method (sentBody method body) k).
  simpl. split; [ reflexivity | ]. split; [ | split ].
  - intros Hget. unfold sentBody. rewrite Hget. now destruct body.
  - intros Hget. unfold sentBody. rewrite Hget. now destruct body.
  - intros data response Hdata Hreply. rewrite Hreply in Hdata.
    destruct (ok response); [ now split | ].
    destruct (text response); discriminate Hdata.
Qed.

(** The handler never throws: every failure comes back as a result, which
    is then flagged as an error.  A result that is not flagged means that
    the lookup of the address and the request for the territories both
    succeeded: a failure of either always gives an error result. *)
Theorem handler_never_throws (a : string) (apiKey : option string) (h : History) :
  exists r h',
    checkTerritoryCoverageTool_handler a apiKey h = (Normal r, h')
    /\ (isError r = None \/ isError r = Some true)
    /\ (isError r = None ->
        exists coords h1 territoriesResponse h2,
          geocodeAddress a h = (Normal coords, h1)
          /\ makeZenbookerRequest "/territories" "GET" None apiKey h1
             = (Normal territoriesResponse, h2)).
Proof.
  unfold checkTerritoryCoverageTool_handler, try_catch, bind.
  rewrite coverageResponse_run, geocodeAddress_run.
  destruct (geocodeOutcome a (nominatim h a)) as [coords | e].
  - destruct (makeZenbookerRequest "/territories" "GET" None apiKey
                (h ++ [NominatimCall a (nominatim h a)]))
      as [[territoriesResponse | e] h2] eqn:Hfetch.
    + destruct (scanTerritories_total coords (results territoriesResponse)
                  initialVars h2) as (vars & calls & Hscan & _).
      rewrite Hscan. eexists; eexists. split; [ reflexivity | ].
      simpl. split; [ now left | intros _ ].
      exists coords, (h ++ [NominatimCall a (nominatim h a)]),
             territoriesResponse, h2.
      now split.
    + eexists; eexists. split; [ reflexivity | ].
      simpl. split; [ now right | discriminate ].
  - eexists; eexists. split; [ reflexivity | ].
    simpl. split; [ now right | discriminate ].
Qed.

(** Without an API key the handler still geocodes the address first; when
    that lookup succeeds, the result is the error result with the message
    of the missing key, and the lookup is the only call issued. *)
Theorem handler_without_key (a : string) (apiKey : option string) (h h1 : History)
    (coords : Coordinates) :
  apiKey = None \/ apiKey = Some "" ->
  geocodeAddress a h = (Normal coords, h1) ->
  checkTerritoryCoverageTool_handler a apiKey h
  = (Normal (errorResult (ErrorObj missingKeyMessage)),
     h ++ [NominatimCall a (nominatim h a)]).
Proof.
  intros Hkey Hgeo. rewrite geocodeAddress_run in Hgeo.
  injection Hgeo as Hout _.
  unfold checkTerritoryCoverageTool_handler, try_catch, bind.
  rewrite coverageResponse_run, Hout.
  destruct Hkey as [Hkey | Hkey]; subst apiKey; reflexivity.
Qed.

(** When the Zenbooker API answers the request for the territories with a
    status that is not a success, the handler returns the error result
    whose message carries the status and the text of the reply; the
    request is the last call issued, no territory is looked up. *)
Theorem handler_reports_api_failure (a k : string) (h h1 : History)
    (coords : Coordinates) (response : Response TerritoriesResponse)
    (errorText : string) :
  truthy k = true ->
  geocodeAddress a h = (Normal coords, h1) ->
  zenbooker h1 "/territories" "GET" None k = Normal response ->
  ok response = false ->
  text response = Normal errorText ->
  checkTerritoryCoverageTool_handler a (Some k) h
  = (Normal
       {| content :=
            [ {| type := "text";
                 text_of :=
                   "❌ **Error checking territory coverage**: "
                   ++ "Zenbooker API Error (" ++ showNumber (status response)
                   ++ "): " ++ errorText |} ];
          isError := Some true |},
     h1 ++ [ZenbookerCall "/territories" "GET" None k (Normal response)]).
Proof.
  intros Hk Hgeo Hreply Hok Htext. rewrite geocodeAddress_run in Hgeo.
  injection Hgeo as Hout Hh1.
  unfold checkTerritoryCoverageTool_handler, try_catch, bind.
  rewrite coverageResponse_run, Hout, Hh1.
  rewrite (makeZenbookerRequest_run "/territories" "GET" None k h1 Hk).
  simpl sentBody. rewrite Hreply, Hok, Htext. reflexivity.
Qed.

(** Which lookups [createTerritoryBoundaries] issues, for well-formed
    queries: the first five postal codes, in order, whatever their outcome;
    then, only when these gave fewer than three points, the first three
    cities, each followed by the first state code when there is one.  It
    never issues more than eight lookups and never calls the Zenbooker
    API. *)
Theorem createTerritoryBoundaries_lookups (territory : Territory)
    (h calls : History) (twb : TerritoryWithBoundaries) :
  Forall (fun q => isWellFormed q = true)
    (firstn 5 (orEmpty (zip_codes territory))) ->
  Forall (fun q => isWellFormed q = true)
    (map (cityAddress territory) (firstn 3 (orEmpty (cities territory)))) ->
  createTerritoryBoundaries territory h = (Normal twb, h ++ calls) ->
  exists zipCalls cityCalls,
    calls = zipCalls ++ cityCalls
    /\ map queryOf zipCalls = firstn 5 (orEmpty (zip_codes territory))
    /\ map queryOf cityCalls
       = (if (List.length (successes zipCalls) <? 3)%nat
          then map (cityAddress territory) (firstn 3 (orEmpty (cities territory)))
          else [])
    /\ forallb (fun c => negb (isZenbookerCall c)) calls = true
    /\ List.length calls <= 8.
Proof.
  intros _ _ Hrun.
  destruct (createTerritoryBoundaries_inv territory h calls _ Hrun)
    as (_ & Hnom & Hlen).
  destruct (createTerritoryBoundaries_shape territory h)
    as (zc & cc & Hrun0 & Hzq & Hcq).
  rewrite Hrun0 in Hrun. injection Hrun as _ Hh. apply app_inv_head in Hh.
  exists zc, cc. repeat split; try assumption. now symmetry.
Qed.

(** The boundaries and the center are defined together: both exactly when
    some lookup succeeded.  Boundaries that are defined have between three
    and eight vertices. *)
Theorem boundaries_and_center_defined_together (territory : Territory)
    (h calls : History) (twb : TerritoryWithBoundaries) :
  createTerritoryBoundaries territory h = (Normal twb, h ++ calls) ->
  (boundaries twb = None <-> center twb = None)
  /\ (center twb = None <-> successes calls = [])
  /\ (forall polygon,
        boundaries twb = Some polygon -> 3 <= List.length polygon <= 8).
Proof.
  intros Hrun.
  destruct (createTerritoryBoundaries_inv territory h calls _ Hrun)
    as (Hr & _ & Hlen).
  injection Hr as Hr. subst twb. simpl.
  pose proof (successes_length calls) as Hs. unfold polygonOf.
  destruct (3 <=? List.length (successes calls))%nat eqn:H3;
    [ apply Nat.leb_le in H3 | apply Nat.leb_gt in H3 ];
    destruct (successes calls) as [ | c rest] eqn:Hpts; simpl in *;
    try lia;
    (split; [ split; intros; congruence | ]);
    (split; [ split; intros; congruence | ]);
    intros polygon Heq; try discriminate Heq;
    injection Heq as Heq; subst polygon; simpl;
    try rewrite length_app; simpl; lia.
Qed.

(** A territory without postal codes and without cities is synthesized
    without any lookup: its boundaries and its center are undefined. *)
Theorem createTerritoryBoundaries_without_data (territory : Territory)
    (h : History) :
  nonEmpty (zip_codes territory) = false ->
  nonEmpty (cities territory) = false ->
  createTerritoryBoundaries territory h
  = (Normal {| territory_of := territory; boundaries := None; center := None |},
     h).
Proof.
  intros Hz Hc.
  unfold createTerritoryBoundaries, createTerritoryBoundaries_body.
  unfold bind, try_catch. rewrite Hz, Hc. reflexivity.
Qed.

(** When the status is [not_covered], every active territory of the list
    was examined and has its entry in [territories_analysis], in list
    order; [all_territories_checked] is the number of active territories. *)
Theorem not_covered_analyses_every_active_territory (a : string)
    (p : Coordinates) (ts : list Territory) (h h' : History) (v : LoopVars) :
  scanTerritories p ts initialVars h = (Normal v, h') ->
  coverage_status (formatResponse a p v) = "not_covered" ->
  examined p h ts h'
  /\ all_territories_checked (formatResponse a p v)
     = List.length (filter active ts)
  /\ map entryKey (territories_analysis (formatResponse a p v))
     = map expectedKey (filter active ts).
Proof.
  intros Hrun Hstatus.
  destruct (coveredByTerritory v) as [twb | ] eqn:Hv.
  { unfold formatResponse in Hstatus; simpl in Hstatus.
    rewrite Hv in Hstatus. discriminate Hstatus. }
  destruct (scanTerritories_uncovered p ts initialVars v h h' Hrun Hv)
    as (_ & Hres).
  simpl in Hres. split; [ | split ].
  - eapply scanTerritories_examined; eassumption.
  - unfold formatResponse; simpl.
    rewrite <- (length_map entryKey), Hres. now rewrite length_map.
  - unfold formatResponse; simpl. exact Hres.
Qed.

Lemma closestRecorded_notCovering (p : Coordinates) (t : Territory)
    (twb : TerritoryWithBoundaries) (vars : LoopVars) :
  territory_of twb = t ->
  closestRecorded p vars ->
  closestRecorded p (notCovering p t twb vars).
Proof.
  intros Hof (Hnone & Hsome). unfold closestRecorded, notCovering; simpl.
  unfold trackClosest, analysisOf. destruct (center twb) as [c | ] eqn:Hc.
  - assert (Hnew : In {| territory_id := id (territory_of twb);
                         territory_name := name (territory_of twb);
                         is_covered := false;
                         distance_meters := Some (getDistance p c) |}
                     (results_var vars
                        ++ [ {| territory_id := id t; territory_name := name t;
                                is_covered := false;
                                distance_meters := Some (getDistance p c) |} ])).
    { apply in_or_app. right. left. now rewrite Hof. }
    assert (Hnot : ~ Forall (fun a => distance_meters a = None)
                     (results_var vars
                        ++ [ {| territory_id := id t; territory_name := name t;
                                is_covered := false;
                                distance_meters := Some (getDistance p c) |} ])).
    { intros Hall. rewrite Forall_app in Hall. destruct Hall as (_ & Hlast).
      inversion Hlast as [ | x xs Hx _]. discriminate Hx. }
    destruct (closestTerritory vars) as [[otwb od] | ] eqn:Hold.
    + destruct (PrimFloat.ltb (getDistance p c) od).
      * split; [ split; [ discriminate | intros Hall; now destruct Hnot ] | ].
        intros twb' d Heq. injection Heq as Htwb Hd. subst twb' d.
        exists c. repeat split; assumption.
      * split; [ split; [ discriminate | intros Hall; now destruct Hnot ] | ].
        intros twb' d Heq. destruct (Hsome twb' d Heq) as (c' & Hc' & Hd & Hin).
        exists c'. repeat split; try assumption.
        apply in_or_app. now left.
    + split; [ split; [ discriminate | intros Hall; now destruct Hnot ] | ].
      intros twb' d Heq. injection Heq as Htwb Hd. subst twb' d.
      exists c. repeat split; assumption.
  - split.
    + rewrite Hnone, Forall_app. split.
      * intros Hall. split; [ exact Hall | ]. constructor; [ reflexivity | constructor ].
      * intros (Hall & _). exact Hall.
    + intros twb' d Heq. destruct (Hsome twb' d Heq) as (c' & Hc' & Hd & Hin).
      exists c'. repeat split; try assumption.
      apply in_or_app. now left.
Qed.

Lemma scanTerritories_closestRecorded (p : Coordinates) (ts : list Territory) :
  forall (vars v : LoopVars) (h h' : History),
  closestRecorded p vars ->
  scanTerritories p ts vars h = (Normal v, h') ->
  closestRecorded p v.
Proof.
  induction ts as [ | t ts IH]; intros vars v h h' Hinv Hrun.
  - simpl in Hrun. injection Hrun as Hv _. now subst v.
  - destruct (active t) eqn:Hact.
    + destruct (scanTerritories_active p t ts vars h Hact)
        as (twb & calls & _ & Hof & _ & Hstep).
      rewrite Hstep in Hrun. destruct (isInside p twb).
      * injection Hrun as Hv _. subst v. exact Hinv.
      * eapply IH; [ | exact Hrun ].
        now apply closestRecorded_notCovering.
    + rewrite (scanTerritories_inactive p t ts vars h Hact) in Hrun.
      eapply IH; eassumption.
Qed.

(** After the loop, covered or not, the closest territory agrees with the
    analysis: [closest_territory] is null exactly when no analysed
    territory has a distance, and otherwise it is a territory with a center
    whose entry in the analysis carries the same distance, the distance from
    the address to that center. *)
Theorem closest_territory_is_analysed (p : Coordinates) (ts : list Territory)
    (h h' : History) (v : LoopVars) :
  scanTerritories p ts initialVars h = (Normal v, h') ->
  closestRecorded p v.
Proof.
  apply scanTerritories_closestRecorded.
  split.
  - split; [ constructor | reflexivity ].
  - intros twb d Heq. discriminate Heq.
Qed.

Lemma scanTerritories_bound (p : Coordinates) (ts : list Territory) :
  forall (vars v : LoopVars) (h calls : History),
  scanTerritories p ts vars h = (Normal v, h ++ calls) ->
  List.length calls <= 8 * List.length (filter active ts).
Proof.
  induction ts as [ | t ts IH]; intros vars v h calls Hrun.
  - simpl in Hrun. injection Hrun as _ Hh.
    rewrite <- (app_nil_r h) in Hh at 1. apply app_inv_head in Hh.
    subst calls. simpl. lia.
  - destruct (active t) eqn:Hact.
    + cbn [filter]. rewrite Hact. cbn [List.length].
      destruct (scanTerritories_active p t ts vars h Hact)
        as (twb & c0 & Hcreate & _ & _ & Hstep).
      destruct (createTerritoryBoundaries_inv t h c0 _ Hcreate) as (_ & _ & H8).
      rewrite Hstep in Hrun. destruct (isInside p twb).
      * injection Hrun as _ Hh. apply app_inv_head in Hh. subst calls. lia.
      * destruct (scanTerritories_total p ts (notCovering p t twb vars) (h ++ c0))
          as (v' & c1 & Hrest & _).
        pose proof (IH _ _ _ _ Hrest) as Hc1.
        rewrite Hrest in Hrun. injection Hrun as _ Hh.
        rewrite <- app_assoc in Hh. apply app_inv_head in Hh. subst calls.
        rewrite length_app. lia.
    + rewrite (scanTerritories_inactive p t ts vars h Hact) in Hrun.
      cbn [filter]. rewrite Hact. eapply IH; eassumption.
Qed.

(** The calls of a coverage check that does not end in an error: one
    lookup of the address, then one request to the Zenbooker API, a GET of
    /territories without a body and with the caller's key, answered with a
    success status, then geocoding lookups only, at most eight for each
    active territory of the reply. *)
Theorem successful_check_calls (a : string) (apiKey : option string)
    (h calls : History) (r : ToolResult) :
  checkTerritoryCoverageTool_handler a apiKey h = (Normal r, h ++ calls) ->
  isError r = None ->
  exists k response territoriesResponse lookups,
    apiKey = Some k
    /\ calls = NominatimCall a (nominatim h a)
               :: ZenbookerCall "/territories" "GET" None k (Normal response)
               :: lookups
    /\ ok response = true
    /\ json response = Normal territoriesResponse
    /\ forallb (fun c => negb (isZenbookerCall c)) lookups = true
    /\ List.length lookups
       <= 8 * List.length (filter active (results territoriesResponse)).
Proof.
  unfold checkTerritoryCoverageTool_handler, try_catch, bind.
  rewrite coverageResponse_run.
  destruct (geocodeOutcome a (nominatim h a)) as [coords | e];
    [ | intros Hrun Hr; injection Hrun as Hr' _; subst r; discriminate Hr ].
  destruct apiKey as [k | ];
    [ | intros Hrun Hr; injection Hrun as Hr' _; subst r; discriminate Hr ].
  destruct (truthy k) eqn:Hk.
  2:{ unfold makeZenbookerRequest. rewrite Hk.
      intros Hrun Hr; injection Hrun as Hr' _; subst r; discriminate Hr. }
  rewrite (makeZenbookerRequest_run "/territories" "GET" None k _ Hk).
  simpl sentBody.
  destruct (zenbooker (h ++ [NominatimCall a (nominatim h a)])
              "/territories" "GET" None k) as [response | rejection];
    [ | intros Hrun Hr; injection Hrun as Hr' _; subst r; discriminate Hr ].
  destruct (ok response) eqn:Hok.
  2:{ destruct (text response);
        intros Hrun Hr; injection Hrun as Hr' _; subst r; discriminate Hr. }
  destruct (json response) as [territoriesResponse | rejection] eqn:Hjson;
    [ | intros Hrun Hr; injection Hrun as Hr' _; subst r; discriminate Hr ].
  destruct (scanTerritories_total coords (results territoriesResponse) initialVars
              ((h ++ [NominatimCall a (nominatim h a)])
                 ++ [ZenbookerCall "/territories" "GET" None k (Normal response)]))
    as (vars & lookups & Hscan & Hnom).
  pose proof (scanTerritories_bound coords (results territoriesResponse)
                _ _ _ _ Hscan) as Hbound.
  rewrite Hscan. intros Hrun _. injection Hrun as _ Hh.
  rewrite <- !app_assoc in Hh. apply app_inv_head in Hh. simpl in Hh.
  exists k, response, territoriesResponse, lookups.
  repeat split; try assumption. now symmetry.
Qed.

(** Whenever the fallback applies, the center is the first vertex of the
    polygon handed to [isPointInPolygon]: the polygon is not the square. *)
Lemma fallback_center_is_a_vertex (territory : Territory) (h calls : History)
    (twb : TerritoryWithBoundaries) :
  createTerritoryBoundaries territory h = (Normal twb, h ++ calls) ->
  1 <= List.length (successes calls) <= 2 ->
  exists c rest,
    center twb = Some c
    /\ boundaries twb = Some (c :: rest ++ squareAround c)
    /\ List.length (c :: rest ++ squareAround c)
       = List.length (successes calls) + 4.
Proof.
  intros Hrun Hlen.
  destruct (createTerritoryBoundaries_inv territory h calls _ Hrun) as (Hr & _).
  injection Hr as Hr. subst twb. simpl.
  destruct (polygonOf_fallback (successes calls) Hlen) as (c & Hhd & Hpoly & Hn).
  destruct (successes calls) as [ | c0 rest]; [ discriminate Hhd | ].
  injection Hhd as Hc. subst c0.
  exists c, rest. repeat split; [ exact Hpoly | exact Hn ].
Qed.

End Program.

(** ** The program in the concrete world *)

Local Abbreviation demoBoundaries :=
  (createTerritoryBoundaries Demo.nominatim Demo.parseFloat).
Local Abbreviation demoScan :=
  (scanTerritories Demo.nominatim Demo.parseFloat Demo.isPointInPolygon
     Demo.getDistance).
Local Abbreviation demoResponse ts :=
  (coverageResponse Demo.nominatim (Demo.serving ts) Demo.parseFloat
     Demo.Math_round Demo.isPointInPolygon Demo.getDistance).
Local Abbreviation demoHandler ts :=
  (checkTerritoryCoverageTool_handler Demo.nominatim (Demo.serving ts)
     Demo.parseFloat Demo.Math_round Demo.isPointInPolygon Demo.getDistance
     Demo.renderCoverage).

(** C1: a territory whose single postal code geocodes gets a center, and
    the boundaries returned have five vertices, the raw point followed by
    the four corners at 0.15 degrees from the center, not the four corners
    alone. *)
Theorem one_success_gives_five_vertices :
  demoBoundaries Demo.oneZip []
  = (Normal {| territory_of := Demo.oneZip;
               boundaries := Some (Demo.billings :: squareAround Demo.billings);
               center := Some Demo.billings |},
     [Demo.lookup "59101"])
  /\ successes Demo.parseFloat [Demo.lookup "59101"] = [Demo.billings]
  /\ List.length (Demo.billings :: squareAround Demo.billings) = 5.
Proof. vm_compute. repeat split. Qed.

(** C3: a territory with two postal codes that geocode gets the fallback
    polygon, the two raw points followed by the four corners; the query
    point equal to its center is a vertex of that polygon, ray casting
    answers false for it, and the coverage check reports [not_covered].
    The square alone would contain the center. *)
Theorem center_outside_fallback_polygon :
  demoBoundaries Demo.twoZips []
  = (Normal {| territory_of := Demo.twoZips;
               boundaries :=
                 Some ([Demo.billings; Demo.heights]
                         ++ squareAround Demo.billings);
               center := Some Demo.billings |},
     [Demo.lookup "59101"; Demo.lookup "59102"])
  /\ Demo.isPointInPolygon Demo.billings
       ([Demo.billings; Demo.heights] ++ squareAround Demo.billings) = false
  /\ Demo.isPointInPolygon Demo.billings (squareAround Demo.billings) = true
  /\ (exists response h',
        demoResponse [Demo.twoZips] Demo.mainStreet (Some "key") []
        = (Normal response, h')
        /\ coordinates response = Demo.billings
        /\ coverage_status response = "not_covered").
Proof.
  repeat split; try (vm_compute; reflexivity).
  eexists; eexists. split; [ vm_compute; reflexivity | ].
  split; reflexivity.
Qed.

(** Scenario 1 with a single postal code: the fallback polygon with one raw
    point contains its center under ray casting. *)
Example scenario_covered :
  exists response h',
    demoResponse [Demo.closed; Demo.far; Demo.oneZip; Demo.threeZips]
      Demo.mainStreet (Some "key") []
    = (Normal response, h')
    /\ coverage_status response = "covered"
    /\ option_map cb_id (covered_by_territory response) = Some "T1"
    /\ all_territories_checked response = 1
    /\ map territory_id (territories_analysis response) = ["T6"]
    /\ h' = [Demo.lookup Demo.mainStreet;
             ZenbookerCall "/territories" "GET" None "key"
               (Demo.serving [Demo.closed; Demo.far; Demo.oneZip; Demo.threeZips]
                  [] "/territories" "GET" None "key");
             Demo.lookup "Laurel, MT"; Demo.lookup "59101"].
Proof.
  eexists; eexists. split; [ vm_compute; reflexivity | ].
  repeat split.
Qed.

(** Well-formedness on the bytes: a high surrogate on its own is not well
    formed, plain text and a character outside ASCII are. *)
Example isWellFormed_examples :
  isWellFormed
    (String (Ascii.ascii_of_N 237)
       (String (Ascii.ascii_of_N 160) (String (Ascii.ascii_of_N 128) "")))
  = false
  /\ isWellFormed "Laurel, MT" = true
  /\ isWellFormed "❌" = true.
Proof. repeat split. Qed.

(** Scenario 3: the only territory that would contain the point is
    inactive. *)
Example scenario_inactive :
  demoScan Demo.billings [Demo.closed] initialVars []
  = (Normal initialVars, []).
Proof. reflexivity. Qed.

(** A missing API key is reported after the address was geocoded, without
    any call to the Zenbooker API. *)
Example scenario_missing_key :
  demoHandler [Demo.oneZip] Demo.mainStreet None []
  = (Normal (errorResult (ErrorObj "Zenbooker API key is required. Please set the ZENBOOKER_API_KEY environment variable.")),
     [Demo.lookup Demo.mainStreet]).
Proof. reflexivity. Qed.

(** ** Instances of the claims in the concrete world *)

Lemma first_covering_witness :
  exists twb h',
    (exists v,
       demoScan Demo.billings
         [Demo.closed; Demo.far; Demo.oneZip; Demo.threeZips] initialVars []
       = (Normal v, h')
       /\ coveredByTerritory v = Some twb)
    /\ territory_of twb = Demo.oneZip
    /\ exists pre t post hm,
         [Demo.closed; Demo.far; Demo.oneZip; Demo.threeZips] = pre ++ t :: post
         /\ examined Demo.nominatim Demo.parseFloat Demo.isPointInPolygon
              Demo.billings [] pre hm
         /\ active t = true
         /\ demoBoundaries t hm = (Normal twb, h')
         /\ isInside Demo.isPointInPolygon Demo.billings twb = true.
Proof.
  eexists; eexists. split; [ | split ].
  - eexists. split; [ vm_compute; reflexivity | reflexivity ].
  - reflexivity.
  - apply (proj1 (first_covering_territory_wins Demo.nominatim Demo.parseFloat
                    Demo.isPointInPolygon Demo.getDistance Demo.billings
                    [Demo.closed; Demo.far; Demo.oneZip; Demo.threeZips]
                    [] _ _)).
    eexists. split; [ vm_compute; reflexivity | reflexivity ].
Defined.

Lemma inactive_territories_witness :
  demoScan Demo.billings [Demo.closed; Demo.far] initialVars []
  = demoScan Demo.billings (filter active [Demo.closed; Demo.far]) initialVars [].
Proof.
  apply (proj1 (inactive_territories_are_skipped Demo.nominatim Demo.parseFloat
                  Demo.Math_round Demo.isPointInPolygon Demo.getDistance
                  Demo.billings [Demo.closed; Demo.far] [])).
Defined.


(** The territory whose first two lookups fail: the third one gives the
    center and the only raw point. *)
Example scenario_flaky :
  demoBoundaries Demo.flaky []
  = (Normal {| territory_of := Demo.flaky;
               boundaries := Some (Demo.heights :: squareAround Demo.heights);
               center := Some Demo.heights |},
     [Demo.lookup "59106"; Demo.lookup "00000"; Demo.lookup "59102"]).
Proof. vm_compute. reflexivity. Qed.

Lemma failed_address_lookup_witness :
  Demo.nominatim [] "nowhere" = Demo.noResults
  /\ exists r,
       demoHandler [Demo.oneZip] "nowhere" (Some "key") []
       = (Normal r, [Demo.lookup "nowhere"])
       /\ isError r = Some true.
Proof.
  split; [ reflexivity | ].
  eexists. split.
  - apply (failed_address_lookup_is_an_error Demo.nominatim
             (Demo.serving [Demo.oneZip]) Demo.parseFloat Demo.Math_round
             Demo.isPointInPolygon Demo.getDistance Demo.renderCoverage
             "nowhere" (Some "key") []);
      [ reflexivity | right; reflexivity ].
  - reflexivity.
Defined.

Lemma three_successes_witness :
  3 <= List.length
         (successes Demo.parseFloat
            [Demo.lookup "59101"; Demo.lookup "59102"; Demo.lookup "59105"])
  /\ boundaries
       {| territory_of := Demo.threeZips;
          boundaries := Some [Demo.billings; Demo.heights; Demo.northeast];
          center := Some Demo.billings |}
     = Some (successes Demo.parseFloat
               [Demo.lookup "59101"; Demo.lookup "59102"; Demo.lookup "59105"]).
Proof.
  split; [ vm_compute; lia | ].
  apply (three_successes_are_the_polygon Demo.nominatim Demo.parseFloat
           Demo.threeZips []
           [Demo.lookup "59101"; Demo.lookup "59102"; Demo.lookup "59105"]);
    [ vm_compute; reflexivity | vm_compute; lia ].
Defined.

Lemma covered_analysis_witness :
  exists v h',
    demoScan Demo.billings [Demo.closed; Demo.far; Demo.oneZip; Demo.threeZips]
      initialVars []
    = (Normal v, h')
    /\ coverage_status (formatResponse Demo.Math_round Demo.mainStreet
                          Demo.billings v) = "covered"
    /\ exists pre t post,
         [Demo.closed; Demo.far; Demo.oneZip; Demo.threeZips] = pre ++ t :: post
         /\ all_territories_checked
              (formatResponse Demo.Math_round Demo.mainStreet Demo.billings v)
            = List.length (filter active pre).
Proof.
  eexists; eexists. split; [ vm_compute; reflexivity | ].
  split; [ reflexivity | ].
  edestruct (covered_analysis_stops_before_covering Demo.nominatim
               Demo.parseFloat Demo.Math_round Demo.isPointInPolygon
               Demo.getDistance Demo.mainStreet Demo.billings
               [Demo.closed; Demo.far; Demo.oneZip; Demo.threeZips] [])
    as (pre & t & post & hm & twb & Hts & _ & _ & _ & _ & _ & Hcount & _);
    [ vm_compute; reflexivity | reflexivity | ].
  exists pre, t, post. split; [ exact Hts | exact Hcount ].
Defined.

Lemma center_is_the_first_success_witness :
  center
    {| territory_of := Demo.flaky;
       boundaries := Some (Demo.heights :: squareAround Demo.heights);
       center := Some Demo.heights |}
  = hd_error
      (successes Demo.parseFloat
         [Demo.lookup "59106"; Demo.lookup "00000"; Demo.lookup "59102"]).
Proof.
  apply (center_is_the_first_success Demo.nominatim Demo.parseFloat Demo.flaky []
           [Demo.lookup "59106"; Demo.lookup "00000"; Demo.lookup "59102"]).
  vm_compute. reflexivity.
Defined.

(** ** Determinacy: the result is a function of the replies *)

Unset Implicit Arguments.

Section DeterminacyRules.

Variables (S X : Type) (hist : S -> History) (rest : S -> X).

Lemma determinate_ext (A : Type) (m1 m2 m1' m2' : M S A) :
  (forall s, m1 s = m1' s) ->
  (forall s, m2 s = m2' s) ->
  determinate hist rest m1 m2 ->
  determinate hist rest m1' m2'.
Proof.
  intros H1 H2 (Hext1 & Hext2 & Hsame). split; [ | split ].
  - intros s r s' Hrun. rewrite <- H1 in Hrun. eapply Hext1; eassumption.
  - intros s r s' Hrun. rewrite <- H2 in Hrun. eapply Hext2; eassumption.
  - intros s1 s2 r1 r2 s1' s2' c1 c2 k1 k2 Hrest Hrun1 Hrun2.
    rewrite <- H1 in Hrun1. rewrite <- H2 in Hrun2.
    eapply Hsame; eassumption.
Qed.

Lemma determinate_andThen (A B : Type) (m1 m2 : M S A)
    (k1 k2 : Completion A -> M S B) :
  determinate hist rest m1 m2 ->
  (forall x, determinate hist rest (k1 x) (k2 x)) ->
  determinate hist rest (andThen m1 k1) (andThen m2 k2).
Proof.
  intros (Hext1 & Hext2 & Hsame) Hk.
  assert (Hext : forall (m : M S A) (k : Completion A -> M S B),
             extends hist m -> (forall x, extends hist (k x)) ->
             extends hist (andThen m k)).
  { intros m k Hm Hkx s r s' Hrun. unfold andThen in Hrun.
    destruct (m s) as [x t] eqn:Hms.
    destruct (Hm _ _ _ Hms) as (ca & Hca).
    destruct (Hkx x _ _ _ Hrun) as (cb & Hcb).
    exists (ca ++ cb). now rewrite Hcb, Hca, app_assoc. }
  split; [ | split ].
  - apply Hext; [ exact Hext1 | intros x; apply (Hk x) ].
  - apply Hext; [ exact Hext2 | intros x; apply (Hk x) ].
  - intros s1 s2 r1 r2 s1' s2' c1 c2 q1 q2 Hrest Hrun1 Hrun2 Hc1 Hc2 Hrep.
    unfold andThen in Hrun1, Hrun2.
    destruct (m1 s1) as [x1 t1] eqn:Hm1. destruct (m2 s2) as [x2 t2] eqn:Hm2.
    destruct (Hext1 _ _ _ Hm1) as (ca1 & Hca1).
    destruct (Hext2 _ _ _ Hm2) as (ca2 & Hca2).
    destruct (Hk x1) as (Hkext1 & _ & _). destruct (Hk x2) as (_ & Hkext2 & _).
    destruct (Hkext1 _ _ _ Hrun1) as (cb1 & Hcb1).
    destruct (Hkext2 _ _ _ Hrun2) as (cb2 & Hcb2).
    assert (Hs1 : c1 = ca1 ++ cb1).
    { apply (app_inv_head (hist s1)). now rewrite <- Hc1, Hcb1, Hca1, app_assoc. }
    assert (Hs2 : c2 = ca2 ++ cb2).
    { apply (app_inv_head (hist s2)). now rewrite <- Hc2, Hcb2, Hca2, app_assoc. }
    subst c1 c2. unfold replies in Hrep. rewrite !map_app, <- !app_assoc in Hrep.
    destruct (Hsame _ _ _ _ _ _ _ _ _ _ Hrest Hm1 Hm2 Hca1 Hca2 Hrep)
      as (Hca & Hq & Hx & Hrest').
    subst ca2 x2.
    destruct (Hk x1) as (_ & _ & Hksame).
    destruct (Hksame _ _ _ _ _ _ _ _ _ _ Hrest' Hrun1 Hrun2 Hcb1 Hcb2 Hq)
      as (Hcb & Hq' & Hr & Hrest'').
    subst cb2. repeat split; assumption.
Qed.

(** A step that issues no call and leaves the state alone. *)
Lemma determinate_pure (A : Type) (x : Completion A) :
  determinate hist rest (fun s : S => (x, s)) (fun s : S => (x, s)).
Proof.
  assert (Hext : extends hist (fun s : S => (x, s))).
  { intros s r s' Hrun. injection Hrun as _ Hs. subst s'. exists [].
    now rewrite app_nil_r. }
  split; [ exact Hext | split; [ exact Hext | ] ].
  intros s1 s2 r1 r2 s1' s2' c1 c2 k1 k2 Hrest Hrun1 Hrun2 Hc1 Hc2 Hrep.
  injection Hrun1 as Hr1 Hs1. injection Hrun2 as Hr2 Hs2. subst.
  rewrite <- (app_nil_r (hist s1')) in Hc1 at 1. apply app_inv_head in Hc1.
  rewrite <- (app_nil_r (hist s2')) in Hc2 at 1. apply app_inv_head in Hc2.
  subst c1 c2. simpl in Hrep. repeat split; assumption.
Qed.

Lemma determinate_ret (A : Type) (a : A) :
  determinate hist rest (ret a) (ret a).
Proof. exact (determinate_pure A (Normal a)). Qed.

Lemma determinate_throw (A : Type) (e : Thrown) :
  determinate hist rest (throw (A:=A) e) (throw e).
Proof. exact (determinate_pure A (Throw e)). Qed.

Lemma determinate_bind (A B : Type) (m1 m2 : M S A) (f1 f2 : A -> M S B) :
  determinate hist rest m1 m2 ->
  (forall a, determinate hist rest (f1 a) (f2 a)) ->
  determinate hist rest (bind m1 f1) (bind m2 f2).
Proof.
  intros Hm Hf.
  apply (determinate_ext B
           (andThen m1 (fun x => match x with
                                 | Normal a => f1 a
                                 | Throw e => throw e
                                 end))
           (andThen m2 (fun x => match x with
                                 | Normal a => f2 a
                                 | Throw e => throw e
                                 end))).
  - intros s. unfold andThen, bind. now destruct (m1 s) as [[a | e] s'].
  - intros s. unfold andThen, bind. now destruct (m2 s) as [[a | e] s'].
  - apply determinate_andThen; [ exact Hm | ].
    intros [a | e]; [ apply Hf | apply determinate_throw ].
Qed.

Lemma determinate_try_catch (A : Type) (b1 b2 : M S A)
    (g1 g2 : Thrown -> M S A) :
  determinate hist rest b1 b2 ->
  (forall e, determinate hist rest (g1 e) (g2 e)) ->
  determinate hist rest (try_catch b1 g1) (try_catch b2 g2).
Proof.
  intros Hb Hg.
  apply (determinate_ext A
           (andThen b1 (fun x => match x with
                                 | Normal a => ret a
                                 | Throw e => g1 e
                                 end))
           (andThen b2 (fun x => match x with
                                 | Normal a => ret a
                                 | Throw e => g2 e
                                 end))).
  - intros s. unfold andThen, try_catch. now destruct (b1 s) as [[a | e] s'].
  - intros s. unfold andThen, try_catch. now destruct (b2 s) as [[a | e] s'].
  - apply determinate_andThen; [ exact Hb | ].
    intros [a | e]; [ apply determinate_ret | apply Hg ].
Qed.

Lemma determinate_when (c : bool) (m1 m2 : M S unit) :
  determinate hist rest m1 m2 ->
  determinate hist rest (when c m1) (when c m2).
Proof. intros Hm. destruct c; [ exact Hm | apply determinate_ret ]. Qed.

Lemma determinate_forOf (A : Type) (xs : list A) (f1 f2 : A -> M S unit) :
  (forall x, determinate hist rest (f1 x) (f2 x)) ->
  determinate hist rest (forOf xs f1) (forOf xs f2).
Proof.
  intros Hf. induction xs as [ | x xs IH]; simpl.
  - apply determinate_ret.
  - apply determinate_bind; [ apply Hf | intros _; exact IH ].
Qed.

End DeterminacyRules.

Section TwoWorlds.

(** Two outside worlds, and the library functions the two runs share. *)
Variables nominatim1 nominatim2 : History -> string -> NominatimReply.
Variables zenbooker1 zenbooker2 :
  History -> string -> string -> option string -> string -> ZenbookerReply.
Variable parseFloat : string -> float.
Variable Math_round : float -> float.
Variable isPointInPolygon : Coordinates -> list Coordinates -> bool.
Variable getDistance : Coordinates -> Coordinates -> float.
Variable renderCoverage : CoverageResponse -> string.

Local Abbreviation detH :=
  (determinate (fun h : History => h) (fun _ : History => tt)).
Local Abbreviation detL :=
  (determinate (fun s : History * Locals => fst s)
     (fun s : History * Locals => snd s)).

Lemma determinate_fetchNominatim (a : string) :
  detH (fetchNominatim nominatim1 a) (fetchNominatim nominatim2 a).
Proof.
  split; [ | split ].
  - intros h r h' Hrun. unfold fetchNominatim in Hrun.
    injection Hrun as _ Hh. subst h'. now eexists.
  - intros h r h' Hrun. unfold fetchNominatim in Hrun.
    injection Hrun as _ Hh. subst h'. now eexists.
  - intros h1 h2 r1 r2 h1' h2' c1 c2 k1 k2 _ Hrun1 Hrun2 Hc1 Hc2 Hrep.
    unfold fetchNominatim in Hrun1, Hrun2.
    injection Hrun1 as Hr1 Hh1. injection Hrun2 as Hr2 Hh2. subst h1' h2'.
    apply app_inv_head in Hc1, Hc2. subst c1 c2. simpl in Hrep.
    injection Hrep as Hreply Hk. subst r1 r2. rewrite Hreply.
    repeat split; assumption.
Qed.

Lemma determinate_fetchZenbooker (endpoint method : string)
    (body : option string) (apiKey : string) :
  detH (fetchZenbooker zenbooker1 endpoint method body apiKey)
       (fetchZenbooker zenbooker2 endpoint method body apiKey).
Proof.
  split; [ | split ].
  - intros h r h' Hrun. unfold fetchZenbooker in Hrun.
    injection Hrun as _ Hh. subst h'. now eexists.
  - intros h r h' Hrun. unfold fetchZenbooker in Hrun.
    injection Hrun as _ Hh. subst h'. now eexists.
  - intros h1 h2 r1 r2 h1' h2' c1 c2 k1 k2 _ Hrun1 Hrun2 Hc1 Hc2 Hrep.
    unfold fetchZenbooker in Hrun1, Hrun2.
    injection Hrun1 as Hr1 Hh1. injection Hrun2 as Hr2 Hh2. subst h1' h2'.
    apply app_inv_head in Hc1, Hc2. subst c1 c2. simpl in Hrep.
    injection Hrep as Hreply Hk. subst r1 r2. rewrite Hreply.
    repeat split; assumption.
Qed.

Lemma determinate_geocodeAddress (a : string) :
  detH (geocodeAddress nominatim1 parseFloat a)
       (geocodeAddress nominatim2 parseFloat a).
Proof.
  unfold geocodeAddress.
  apply determinate_try_catch; [ | intros e; apply determinate_throw ].
  apply determinate_bind; [ apply determinate_fetchNominatim | ].
  intros response. destruct (negb (ok response)); [ apply determinate_throw | ].
  apply determinate_bind; [ apply determinate_pure | ].
  intros [[ | first others] | ];
    [ apply determinate_throw | apply determinate_ret | apply determinate_throw ].
Qed.

Lemma determinate_makeZenbookerRequest (endpoint method : string)
    (body apiKey : option string) :
  detH (makeZenbookerRequest zenbooker1 endpoint method body apiKey)
       (makeZenbookerRequest zenbooker2 endpoint method body apiKey).
Proof.
  unfold makeZenbookerRequest.
  destruct apiKey as [effectiveApiKey | ]; [ | apply determinate_throw ].
  destruct (truthy effectiveApiKey); [ | apply determinate_throw ].
  apply determinate_bind; [ apply determinate_fetchZenbooker | ].
  intros response. destruct (negb (ok response)).
  - apply determinate_bind; [ apply determinate_pure | ].
    intros errorText. apply determinate_throw.
  - apply determinate_pure.
Qed.

(** A step on the local variables alone. *)
Lemma determinate_local (A : Type) (f : Locals -> A) (g : Locals -> Locals) :
  detL (fun s => (Normal (f (snd s)), (fst s, g (snd s))))
       (fun s => (Normal (f (snd s)), (fst s, g (snd s)))).
Proof.
  assert (Hext : extends (fun s : History * Locals => fst s)
                   (fun s : History * Locals =>
                      (Normal (f (snd s)), (fst s, g (snd s))))).
  { intros s r s' Hrun. injection Hrun as _ Hs. subst s'. exists [].
    simpl. now rewrite app_nil_r. }
  split; [ exact Hext | split; [ exact Hext | ] ].
  intros s1 s2 r1 r2 s1' s2' c1 c2 k1 k2 Hrest Hrun1 Hrun2 Hc1 Hc2 Hrep.
  injection Hrun1 as Hr1 Hs1. injection Hrun2 as Hr2 Hs2. subst.
  simpl in *.
  rewrite <- (app_nil_r (fst s1)) in Hc1 at 1. apply app_inv_head in Hc1.
  rewrite <- (app_nil_r (fst s2)) in Hc2 at 1. apply app_inv_head in Hc2.
  subst c1 c2. simpl in Hrep. rewrite Hrest. repeat split; assumption.
Qed.

Lemma determinate_getLocals : detL getLocals getLocals.
Proof.
  apply (determinate_ext _ _ _ _ _
           (fun s : History * Locals => (Normal (snd s), (fst s, snd s)))
           (fun s : History * Locals => (Normal (snd s), (fst s, snd s)))).
  - intros [h l]. reflexivity.
  - intros [h l]. reflexivity.
  - exact (determinate_local Locals (fun l => l) (fun l => l)).
Qed.

Lemma determinate_push (cs : list Coordinates) : detL (push cs) (push cs).
Proof.
  exact (determinate_local unit (fun _ => tt)
           (fun l => {| boundaries_var := boundaries_var l ++ cs;
                        center_var := center_var l |})).
Qed.

Lemma determinate_setCenter (coords : Coordinates) :
  detL (setCenter coords) (setCenter coords).
Proof.
  exact (determinate_local unit (fun _ => tt)
           (fun l => {| boundaries_var := boundaries_var l;
                        center_var := Some coords |})).
Qed.

Lemma determinate_liftH (A : Type) (m1 m2 : M History A) :
  detH m1 m2 -> detL (liftH m1) (liftH m2).
Proof.
  intros (Hext1 & Hext2 & Hsame).
  assert (Hext : forall m : M History A,
             extends (fun h : History => h) m ->
             extends (fun s : History * Locals => fst s) (liftH m)).
  { intros m Hm [h l] r s' Hrun. unfold liftH in Hrun. simpl in Hrun.
    destruct (m h) as [x h'] eqn:Hmh. injection Hrun as _ Hs. subst s'.
    simpl. eapply Hm. exact Hmh. }
  split; [ now apply Hext | split; [ now apply Hext | ] ].
  intros [h1 l1] [h2 l2] r1 r2 s1' s2' c1 c2 k1 k2 Hrest Hrun1 Hrun2 Hc1 Hc2 Hrep.
  unfold liftH in Hrun1, Hrun2. simpl in *.
  destruct (m1 h1) as [x1 h1'] eqn:Hm1. destruct (m2 h2) as [x2 h2'] eqn:Hm2.
  injection Hrun1 as Hr1 Hs1. injection Hrun2 as Hr2 Hs2. subst. simpl in *.
  destruct (Hsame _ _ _ _ _ _ _ _ _ _ eq_refl Hm1 Hm2 Hc1 Hc2 Hrep)
    as (Hc & Hk & Hr & _).
  repeat split; assumption.
Qed.

Lemma determinate_tryGeocode (q : string) :
  detL (tryGeocode nominatim1 parseFloat q) (tryGeocode nominatim2 parseFloat q).
Proof.
  unfold tryGeocode.
  apply determinate_try_catch; [ | intros e; apply determinate_ret ].
  apply determinate_bind;
    [ apply determinate_liftH, determinate_geocodeAddress | ].
  intros coords. apply determinate_bind; [ apply determinate_push | ].
  intros _. apply determinate_bind; [ apply determinate_getLocals | ].
  intros l. apply determinate_when, determinate_setCenter.
Qed.

Lemma determinate_createTerritoryBoundaries_body (territory : Territory) :
  detL (createTerritoryBoundaries_body nominatim1 parseFloat territory)
       (createTerritoryBoundaries_body nominatim2 parseFloat territory).
Proof.
  unfold createTerritoryBoundaries_body.
  apply determinate_try_catch; [ | intros e; apply determinate_ret ].
  apply determinate_bind.
  { apply determinate_when, determinate_forOf.
    intros zipCode. apply determinate_tryGeocode. }
  intros _. apply determinate_bind; [ apply determinate_getLocals | ].
  intros l. apply determinate_bind.
  { apply determinate_when, determinate_forOf.
    intros city. apply determinate_tryGeocode. }
  intros _. apply determinate_bind; [ apply determinate_getLocals | ].
  intros l'. destruct (center_var l') as [center | ].
  - apply determinate_when, determinate_push.
  - apply determinate_ret.
Qed.

(** Running a computation on fresh local variables and dropping them at
    the end, as a function call does. *)
Lemma determinate_call (A : Type) (l0 : Locals) (m1 m2 : M (History * Locals) A) :
  detL m1 m2 ->
  detH (fun h => let '(r, (h', _)) := m1 (h, l0) in (r, h'))
       (fun h => let '(r, (h', _)) := m2 (h, l0) in (r, h')).
Proof.
  intros (Hext1 & Hext2 & Hsame).
  assert (Hext : forall m : M (History * Locals) A,
             extends (fun s : History * Locals => fst s) m ->
             extends (fun h : History => h)
               (fun h => let '(r, (h', _)) := m (h, l0) in (r, h'))).
  { intros m Hm h r h' Hrun.
    destruct (m (h, l0)) as [x [h0 l]] eqn:Hmh. injection Hrun as _ Hh. subst h'.
    apply (Hm _ _ _ Hmh). }
  split; [ now apply Hext | split; [ now apply Hext | ] ].
  intros h1 h2 r1 r2 h1' h2' c1 c2 k1 k2 _ Hrun1 Hrun2 Hc1 Hc2 Hrep.
  destruct (m1 (h1, l0)) as [x1 [g1 l1]] eqn:Hm1.
  destruct (m2 (h2, l0)) as [x2 [g2 l2]] eqn:Hm2.
  injection Hrun1 as Hr1 Hh1. injection Hrun2 as Hr2 Hh2.
  subst x1 x2 g1 g2.
  destruct (Hsame (h1, l0) (h2, l0) r1 r2 (h1', l1) (h2', l2) c1 c2 k1 k2
              eq_refl Hm1 Hm2 Hc1 Hc2 Hrep)
    as (Hc & Hk & Hr & _).
  repeat split; assumption.
Qed.

Lemma determinate_createTerritoryBoundaries (territory : Territory) :
  detH (createTerritoryBoundaries nominatim1 parseFloat territory)
       (createTerritoryBoundaries nominatim2 parseFloat territory).
Proof.
  unfold createTerritoryBoundaries.
  apply (determinate_call TerritoryWithBoundaries
           {| boundaries_var := []; center_var := None |}).
  apply determinate_bind;
    [ apply determinate_createTerritoryBoundaries_body | ].
  intros _. apply determinate_bind; [ apply determinate_getLocals | ].
  intros l. apply determinate_ret.
Qed.

Lemma determinate_scanTerritories (p : Coordinates) (ts : list Territory) :
  forall vars : LoopVars,
  detH (scanTerritories nominatim1 parseFloat isPointInPolygon getDistance
          p ts vars)
       (scanTerritories nominatim2 parseFloat isPointInPolygon getDistance
          p ts vars).
Proof.
  induction ts as [ | t ts IH]; intros vars; simpl.
  - apply determinate_ret.
  - destruct (negb (active t)); [ apply IH | ].
    apply determinate_bind; [ apply determinate_createTerritoryBoundaries | ].
    intros twb. destruct (isInside isPointInPolygon p twb);
      [ apply determinate_ret | apply IH ].
Qed.

Lemma determinate_coverageResponse (a : string) (apiKey : option string) :
  detH (coverageResponse nominatim1 zenbooker1 parseFloat Math_round
          isPointInPolygon getDistance a apiKey)
       (coverageResponse nominatim2 zenbooker2 parseFloat Math_round
          isPointInPolygon getDistance a apiKey).
Proof.
  unfold coverageResponse.
  apply determinate_bind; [ apply determinate_geocodeAddress | ].
  intros addressCoords.
  apply determinate_bind; [ apply determinate_makeZenbookerRequest | ].
  intros territoriesResponse.
  apply determinate_bind; [ apply determinate_scanTerritories | ].
  intros vars. apply determinate_ret.
Qed.

Lemma determinate_handler (a : string) (apiKey : option string) :
  detH (checkTerritoryCoverageTool_handler nominatim1 zenbooker1 parseFloat
          Math_round isPointInPolygon getDistance renderCoverage a apiKey)
       (checkTerritoryCoverageTool_handler nominatim2 zenbooker2 parseFloat
          Math_round isPointInPolygon getDistance renderCoverage a apiKey).
Proof.
  unfold checkTerritoryCoverageTool_handler.
  apply determinate_try_catch; [ | intros e; apply determinate_ret ].
  apply determinate_bind; [ apply determinate_coverageResponse | ].
  intros response. apply determinate_ret.
Qed.

(** C8: two runs of the coverage check on the same address, in any two
    worlds and from any two histories, that receive the same replies (the
    same territory list from the Zenbooker API and the same answer to every
    geocoding lookup, in order) return identical results, and issue the same
    calls. *)
Theorem same_replies_same_result (a : string) (apiKey : option string)
    (h1 h2 c1 c2 : History) (r1 r2 : Completion ToolResult) :
  checkTerritoryCoverageTool_handler nominatim1 zenbooker1 parseFloat
    Math_round isPointInPolygon getDistance renderCoverage a apiKey h1
  = (r1, h1 ++ c1) ->
  checkTerritoryCoverageTool_handler nominatim2 zenbooker2 parseFloat
    Math_round isPointInPolygon getDistance renderCoverage a apiKey h2
  = (r2, h2 ++ c2) ->
  replies c1 = replies c2 ->
  r1 = r2 /\ c1 = c2.
Proof.
  intros Hrun1 Hrun2 Hrep.
  destruct (determinate_handler a apiKey) as (_ & _ & Hsame).
  destruct (Hsame h1 h2 r1 r2 (h1 ++ c1) (h2 ++ c2) c1 c2 [] [] eq_refl
              Hrun1 Hrun2 eq_refl eq_refl)
    as (Hc & _ & Hr & _).
  - now rewrite !app_nil_r.
  - now split.
Qed.

End TwoWorlds.

Lemma same_replies_witness :
  exists r1 r2 c1 c2,
    checkTerritoryCoverageTool_handler Demo.nominatim
      (Demo.serving [Demo.oneZip]) Demo.parseFloat Demo.Math_round
      Demo.isPointInPolygon Demo.getDistance Demo.renderCoverage
      Demo.mainStreet (Some "key") []
    = (r1, [] ++ c1)
    /\ checkTerritoryCoverageTool_handler Demo.nominatimLater
         (Demo.serving [Demo.oneZip]) Demo.parseFloat Demo.Math_round
         Demo.isPointInPolygon Demo.getDistance Demo.renderCoverage
         Demo.mainStreet (Some "key") [Demo.lookup "59105"]
       = (r2, [Demo.lookup "59105"] ++ c2)
    /\ replies c1 = replies c2
    /\ r1 = r2 /\ c1 = c2.
Proof.
  do 4 eexists.
  split; [ vm_compute; reflexivity | ].
  split; [ vm_compute; reflexivity | ].
  split; [ reflexivity | ].
  apply (same_replies_same_result Demo.nominatim Demo.nominatimLater
           (Demo.serving [Demo.oneZip]) (Demo.serving [Demo.oneZip])
           Demo.parseFloat Demo.Math_round Demo.isPointInPolygon
           Demo.getDistance Demo.renderCoverage Demo.mainStreet (Some "key")
           [] [Demo.lookup "59105"]);
    [ vm_compute; reflexivity | vm_compute; reflexivity | reflexivity ].
Defined.

(** ** Query parameters *)

Section QueryProperties.

Variable numberToString : float -> string.

Lemma buildQueryParams_without_key (o : JsObject) (k : string) :
  ~ In k (map fst o) ->
  filter (fun e => String.eqb (fst e) k) (buildQueryParams numberToString o) = [].
Proof.
  induction o as [ | [k' v'] o IH]; intros Hk; [ reflexivity | ].
  simpl in Hk. unfold buildQueryParams in *. cbn [flat_map fst snd].
  rewrite filter_app, IH by tauto.
  destruct (String.eqb_spec k' k) as [Heq | Hne]; [ tauto | ].
  apply String.eqb_neq in Hne.
  destruct v'; simpl; try rewrite Hne; reflexivity.
Qed.

Lemma buildQueryParams_setProp_key (o : JsObject) (k : string) (v : JsValue) :
  v <> JsUndefined ->
  NoDup (map fst o) ->
  filter (fun e => String.eqb (fst e) k)
    (buildQueryParams numberToString (setProp o k v))
  = [(k, stringOf numberToString v)].
Proof.
  intros Hv. induction o as [ | [k' v'] o IH]; intros Hnd.
  - unfold buildQueryParams. simpl. destruct v; try congruence;
      simpl; now rewrite String.eqb_refl.
  - simpl in Hnd. inversion Hnd as [ | x xs Hnotin Hnd']. subst x xs.
    cbn [setProp]. destruct (String.eqb_spec k' k) as [Heq | Hne].
    + subst k'. unfold buildQueryParams. cbn [flat_map fst snd].
      rewrite filter_app.
      fold (buildQueryParams numberToString o).
      rewrite (buildQueryParams_without_key o k Hnotin), app_nil_r.
      destruct v; try congruence; simpl; now rewrite String.eqb_refl.
    + unfold buildQueryParams. cbn [flat_map fst snd]. rewrite filter_app.
      fold (buildQueryParams numberToString (setProp o k v)).
      rewrite (IH Hnd'). apply String.eqb_neq in Hne.
      destruct v'; simpl; try rewrite Hne; reflexivity.
Qed.

Lemma buildQueryParams_setProp_others (o : JsObject) (k : string) (v : JsValue) :
  filter (fun e => negb (String.eqb (fst e) k))
    (buildQueryParams numberToString (setProp o k v))
  = filter (fun e => negb (String.eqb (fst e) k))
      (buildQueryParams numberToString o).
Proof.
  induction o as [ | [k' v'] o IH].
  - unfold buildQueryParams. simpl.
    destruct v; simpl; try rewrite String.eqb_refl; reflexivity.
  - cbn [setProp]. destruct (String.eqb_spec k' k) as [Heq | Hne].
    + subst k'. unfold buildQueryParams. cbn [flat_map fst snd].
      rewrite !filter_app. f_equal.
      destruct v, v'; simpl; try rewrite String.eqb_refl; reflexivity.
    + unfold buildQueryParams. cbn [flat_map fst snd]. rewrite !filter_app.
      fold (buildQueryParams numberToString (setProp o k v)).
      fold (buildQueryParams numberToString o).
      now rewrite IH.
Qed.

(** The request for available appointments always carries exactly one
    [limit] entry: the caller's limit when it is truthy, 10 when the caller
    gives none (or 0, or NaN).  All other parameters are passed as by
    [buildQueryParams] alone: those that are undefined are left out, the
    others keep their order and are rendered by [String]. *)
Theorem appointments_query_has_one_limit (params : JsObject) :
  NoDup (map fst params) ->
  filter (fun e => String.eqb (fst e) "limit")
    (buildQueryParams numberToString (paramsWithDefaults params))
  = [("limit",
      stringOf numberToString
        (if truthyValue (getProp params "limit") then getProp params "limit"
         else JsNumber 10%float))]
  /\ filter (fun e => negb (String.eqb (fst e) "limit"))
       (buildQueryParams numberToString (paramsWithDefaults params))
     = filter (fun e => negb (String.eqb (fst e) "limit"))
         (buildQueryParams numberToString params).
Proof.
  intros Hnd. unfold paramsWithDefaults. split.
  - apply buildQueryParams_setProp_key; [ | exact Hnd ].
    destruct (truthyValue (getProp params "limit")) eqn:Ht; [ | discriminate ].
    intros Heq. rewrite Heq in Ht. discriminate Ht.
  - apply buildQueryParams_setProp_others.
Qed.

End QueryProperties.

(** ** Instances of the further properties in the concrete world *)

Lemma geocodeAddress_errors_witness :
  exists message,
    ErrorObj "Geocoding failed: Geocoding HTTP 429: Too Many Requests"
    = ErrorObj ("Geocoding failed: " ++ message).
Proof.
  apply (geocodeAddress_errors_are_prefixed Demo.nominatim Demo.parseFloat
           "59106" [] [Demo.lookup "59106"]).
  reflexivity.
Defined.

Lemma makeZenbookerRequest_requires_key_witness :
  makeZenbookerRequest (Demo.serving [Demo.oneZip]) "/territories" "GET" None
    (Some "") []
  = (Throw (ErrorObj missingKeyMessage), []).
Proof.
  apply (makeZenbookerRequest_requires_key (Demo.serving [Demo.oneZip])).
  right. reflexivity.
Defined.

Lemma makeZenbookerRequest_one_request_witness :
  exists sent reply,
    snd (makeZenbookerRequest (Demo.serving [Demo.oneZip]) "/territories"
           "GET" (Some "{}") (Some "key") [])
    = [] ++ [ZenbookerCall "/territories" "GET" sent "key" reply]
    /\ (String.eqb "GET" "GET" = true -> sent = None).
Proof.
  destruct (makeZenbookerRequest_one_request (Demo.serving [Demo.oneZip])
              "/territories" "GET" (Some "{}") "key" [] eq_refl)
    as (sent & reply & Hcall & Hget & _).
  exists sent, reply. split; [ exact Hcall | exact Hget ].
Defined.

Lemma handler_without_key_witness :
  checkTerritoryCoverageTool_handler Demo.nominatim (Demo.serving [Demo.oneZip])
    Demo.parseFloat Demo.Math_round Demo.isPointInPolygon Demo.getDistance
    Demo.renderCoverage Demo.mainStreet None []
  = (Normal (errorResult (ErrorObj missingKeyMessage)),
     [] ++ [NominatimCall Demo.mainStreet (Demo.nominatim [] Demo.mainStreet)]).
Proof.
  apply (handler_without_key Demo.nominatim (Demo.serving [Demo.oneZip])
           Demo.parseFloat Demo.Math_round Demo.isPointInPolygon
           Demo.getDistance Demo.renderCoverage Demo.mainStreet None []
           [Demo.lookup Demo.mainStreet] Demo.billings).
  - left. reflexivity.
  - vm_compute. reflexivity.
Defined.

Lemma handler_reports_api_failure_witness :
  exists r,
    checkTerritoryCoverageTool_handler Demo.nominatim Demo.unauthorized
      Demo.parseFloat Demo.Math_round Demo.isPointInPolygon Demo.getDistance
      Demo.renderCoverage Demo.mainStreet (Some "key") []
    = (Normal r,
       [Demo.lookup Demo.mainStreet]
         ++ [ZenbookerCall "/territories" "GET" None "key"
               (Demo.unauthorized [Demo.lookup Demo.mainStreet] "/territories"
                  "GET" None "key")])
    /\ isError r = Some true.
Proof.
  eexists. split.
  - apply (handler_reports_api_failure Demo.nominatim Demo.unauthorized
             Demo.parseFloat Demo.Math_round Demo.isPointInPolygon
             Demo.getDistance Demo.renderCoverage Demo.mainStreet "key" []
             [Demo.lookup Demo.mainStreet] Demo.billings _ "invalid api key");
      [ reflexivity | vm_compute; reflexivity | reflexivity | reflexivity
      | reflexivity ].
  - reflexivity.
Defined.

Lemma createTerritoryBoundaries_lookups_witness :
  exists zipCalls cityCalls,
    [Demo.lookup "00000"; Demo.lookup "Nowhere, MT"] = zipCalls ++ cityCalls
    /\ map queryOf zipCalls = firstn 5 (orEmpty (zip_codes Demo.unknown))
    /\ map queryOf cityCalls
       = (if (List.length (successes Demo.parseFloat zipCalls) <? 3)%nat
          then map (cityAddress Demo.unknown)
                 (firstn 3 (orEmpty (cities Demo.unknown)))
          else []).
Proof.
  destruct (createTerritoryBoundaries_lookups Demo.nominatim Demo.parseFloat
              Demo.unknown [] [Demo.lookup "00000"; Demo.lookup "Nowhere, MT"]
              {| territory_of := Demo.unknown; boundaries := None;
                 center := None |})
    as (zc & cc & Hcalls & Hz & Hc & _);
    [ repeat constructor | repeat constructor | vm_compute; reflexivity | ].
  exists zc, cc. repeat split; assumption.
Defined.

Lemma geocodeAddress_first_candidate_witness :
  geocodeAddress Demo.nominatim Demo.parseFloat "59101" []
  = (Normal Demo.billings, [] ++ [Demo.lookup "59101"]).
Proof.
  apply (geocodeAddress_uses_first_candidate Demo.nominatim Demo.parseFloat
           "59101" []
           {| ok := true; status := 200%N; statusText := "OK";
              text := Normal "";
              json := Normal (Some [ {| lat := "45.75"; lon := "-108.5";
                                        display_name := "" |} ]) |}
           {| lat := "45.75"; lon := "-108.5"; display_name := "" |} []);
    reflexivity.
Defined.

Lemma boundaries_and_center_witness :
  boundaries {| territory_of := Demo.unknown; boundaries := None; center := None |}
  = None
  <-> center {| territory_of := Demo.unknown; boundaries := None; center := None |}
      = None.
Proof.
  apply (boundaries_and_center_defined_together Demo.nominatim Demo.parseFloat
           Demo.unknown [] [Demo.lookup "00000"; Demo.lookup "Nowhere, MT"]).
  vm_compute. reflexivity.
Defined.

Lemma createTerritoryBoundaries_without_data_witness :
  createTerritoryBoundaries Demo.nominatim Demo.parseFloat
    (Demo.territory "T8" [] [] true) []
  = (Normal {| territory_of := Demo.territory "T8" [] [] true;
               boundaries := None; center := None |},
     []).
Proof.
  apply (createTerritoryBoundaries_without_data Demo.nominatim Demo.parseFloat);
    reflexivity.
Defined.

Lemma not_covered_witness :
  exists v h',
    demoScan Demo.billings [Demo.closed; Demo.far; Demo.unknown] initialVars []
    = (Normal v, h')
    /\ all_territories_checked
         (formatResponse Demo.Math_round Demo.mainStreet Demo.billings v)
       = List.length (filter active [Demo.closed; Demo.far; Demo.unknown]).
Proof.
  eexists; eexists. split; [ vm_compute; reflexivity | ].
  edestruct (not_covered_analyses_every_active_territory Demo.nominatim
               Demo.parseFloat Demo.Math_round Demo.isPointInPolygon
               Demo.getDistance Demo.mainStreet Demo.billings
               [Demo.closed; Demo.far; Demo.unknown] [])
    as (_ & Hcount & _);
    [ vm_compute; reflexivity | reflexivity | exact Hcount ].
Defined.

Lemma closest_territory_witness :
  exists v h',
    demoScan Demo.billings [Demo.closed; Demo.far; Demo.unknown] initialVars []
    = (Normal v, h')
    /\ closestRecorded Demo.getDistance Demo.billings v.
Proof.
  eexists; eexists. split; [ vm_compute; reflexivity | ].
  eapply (closest_territory_is_analysed Demo.nominatim Demo.parseFloat
            Demo.isPointInPolygon Demo.getDistance Demo.billings
            [Demo.closed; Demo.far; Demo.unknown] []).
  vm_compute. reflexivity.
Defined.

Lemma successful_check_calls_witness :
  exists (r : ToolResult) (calls : History),
    checkTerritoryCoverageTool_handler Demo.nominatim
      (Demo.serving [Demo.closed; Demo.far; Demo.oneZip]) Demo.parseFloat
      Demo.Math_round Demo.isPointInPolygon Demo.getDistance
      Demo.renderCoverage Demo.mainStreet (Some "key") []
    = (Normal r, [] ++ calls)
    /\ isError r = None
    /\ exists lookups : History,
         List.length calls = 2 + List.length lookups
         /\ List.length lookups <= 8 * 2.
Proof.
  eexists; eexists. split; [ vm_compute; reflexivity | ].
  split; [ reflexivity | ].
  edestruct (successful_check_calls Demo.nominatim
               (Demo.serving [Demo.closed; Demo.far; Demo.oneZip])
               Demo.parseFloat Demo.Math_round Demo.isPointInPolygon
               Demo.getDistance Demo.renderCoverage Demo.mainStreet
               (Some "key") [])
    as (k & response & tr & lookups & _ & Hcalls & _ & Hjson & _ & Hlen);
    [ vm_compute; reflexivity | reflexivity | ].
  exists lookups. split.
  - rewrite Hcalls. reflexivity.
  - inversion Hcalls. subst response lookups. simpl in Hjson.
    injection Hjson as Htr. subst tr. exact Hlen.
Defined.

Lemma appointments_query_witness :
  filter (fun e => String.eqb (fst e) "limit")
    (buildQueryParams Demo.numberToString
       (paramsWithDefaults Demo.appointmentParams))
  = [("limit", "10")].
Proof.
  apply (appointments_query_has_one_limit Demo.numberToString
           Demo.appointmentParams).
  repeat constructor; simpl; intuition discriminate.
Defined.
